(** * Blog backend: generation client, article service and HTTP routes

    A shallow embedding of the backend's JavaScript:
    - [services/aiClient.js]   (model fallback, response normalisation,
                                title/content parsing, template fallback),
    - [services/articleService.js] and [db.js] (seeding, reads, create),
    - [routes/articles.js] and [index.js]      (HTTP handlers, health probe,
                                                 allowed origins),
    - [services/articleJob.js]                 (the scheduled firing),
    and, of [services/aiClient.js], the token verification and the
    diagnostics as well.

    JavaScript strings are sequences of UTF-16 code units, JSON bodies are
    values of [JsVal], a [throw] / rejected promise is the [Throw] case of
    [Completion], and the external services (OpenRouter, SQLite) are explicit
    arguments: a [Network] of scripted responses and a [Db] state.
    Console output is not modelled. *)

From Stdlib Require Import Strings.Ascii Strings.String.
From Stdlib Require Import List NArith ZArith Lia Bool PeanoNat Sorting.Sorted.
Import ListNotations.

Set Implicit Arguments.
Set Warnings "-register-all".

(* ================================================================== *)
(** ** JavaScript strings *)
(* ================================================================== *)

Module Str.

(** A string value: its UTF-16 code units, in order.  [length] is the
    JavaScript [.length]. *)
Definition jsstring := list N.

(** A literal of the source, for the characters below 128. *)
Definition lit (s : string) : jsstring :=
  map N_of_ascii (list_ascii_of_string s).

Definition LF : N := 10.      (* line feed *)
Definition HASH : N := 35.    (* number sign *)
Definition QUOTE : N := 34.   (* double quotation mark *)

Fixpoint eqb (a b : jsstring) : bool :=
  match a, b with
  | [], [] => true
  | x :: a', y :: b' => N.eqb x y && eqb a' b'
  | _, _ => false
  end.

(** ECMAScript WhiteSpace and LineTerminator code units: what
    [String.prototype.trim] removes and what [\s] matches. *)
Definition isWhiteSpace (c : N) : bool :=
  ((9 <=? c) && (c <=? 13)          (* TAB LF VT FF CR *)
   || (c =? 32) || (c =? 160)       (* SP NBSP *)
   || (c =? 5760)                   (* U+1680 *)
   || ((8192 <=? c) && (c <=? 8202))(* U+2000 .. U+200A *)
   || (c =? 8232) || (c =? 8233)    (* LS PS *)
   || (c =? 8239) || (c =? 8287)    (* U+202F U+205F *)
   || (c =? 12288) || (c =? 65279)  (* U+3000 U+FEFF *))%N.

Fixpoint trimStart (s : jsstring) : jsstring :=
  match s with
  | c :: s' => if isWhiteSpace c then trimStart s' else s
  | [] => []
  end.

Definition trimEnd (s : jsstring) : jsstring := rev (trimStart (rev s)).

(** [s.trim()] *)
Definition trim (s : jsstring) : jsstring := trimEnd (trimStart s).

(** [s.split(sep)] for a one-unit separator: never the empty array. *)
Fixpoint split (sep : N) (s : jsstring) : list jsstring :=
  match s with
  | [] => [[]]
  | c :: s' =>
      if (c =? sep)%N then [] :: split sep s'
      else match split sep s' with
           | l :: ls => (c :: l) :: ls
           | [] => [[c]]
           end
  end.

(** [parts.join(sep)] on an array of strings. *)
Fixpoint join (sep : jsstring) (parts : list jsstring) : jsstring :=
  match parts with
  | [] => []
  | [x] => x
  | x :: xs => x ++ sep ++ join sep xs
  end.

(** [s.slice(0, n)] *)
Definition slice0 (n : nat) (s : jsstring) : jsstring := firstn n s.

Fixpoint dropHashes (s : jsstring) : jsstring :=
  match s with
  | c :: s' => if (c =? HASH)%N then dropHashes s' else s
  | [] => []
  end.

(** [s.replace(/^#+\s*/, '')]: the pattern is anchored at the start and
    both quantifiers are greedy, so a match exists exactly when [s] begins
    with a number sign, and it covers every leading number sign and the
    white space after them. *)
Definition stripHeading (s : jsstring) : jsstring :=
  match s with
  | c :: _ => if (c =? HASH)%N then trimStart (dropHashes s) else s
  | [] => []
  end.

(** [hay.includes(needle)] on strings. *)
Fixpoint startsWith (needle hay : jsstring) : bool :=
  match needle, hay with
  | [], _ => true
  | x :: n', y :: h' => N.eqb x y && startsWith n' h'
  | _ :: _, [] => false
  end.

Fixpoint includes (needle hay : jsstring) : bool :=
  startsWith needle hay ||
  match hay with
  | [] => false
  | _ :: h' => includes needle h'
  end.

End Str.

Import Str.
Arguments lit s%_string.

(* ================================================================== *)
(** ** JavaScript values, exceptions *)
(* ================================================================== *)

Module Js.

(** A number, by the two observations this program makes of one: its
    truthiness ([false] for 0 and NaN) and its rendering inside a template
    literal. *)
Record JsNum := { num_truthy : bool; num_text : jsstring }.

(** Values that a parsed JSON body, a property read or a request field can
    be.  An object is its list of fields; a read finds the first binding of
    the name. *)
Inductive JsVal :=
| JUndefined
| JNull
| JBool (b : bool)
| JNum (n : JsNum)
| JStr (s : jsstring)
| JArr (items : list JsVal)
| JObj (fields : list (jsstring * JsVal)).

(** [err.response] of a rejected HTTP request. *)
Record HttpResponse := { status : Z; data : JsVal }.

(** A thrown value: an [Error] object (a [TypeError] of the runtime, or the
    rejection of an HTTP or database call). *)
Record JsError := {
  err_name : jsstring;
  err_code : option jsstring;
  err_message : jsstring;
  err_response : option HttpResponse
}.

(** The outcome of evaluating code (or awaiting a promise): a value, or a
    thrown error (a rejection). *)
Inductive Completion (A : Type) :=
| Normal (a : A)
| Throw (e : JsError).
Arguments Normal {A} a.
Arguments Throw {A} e.

Definition bind {A B} (c : Completion A) (k : A -> Completion B) : Completion B :=
  match c with
  | Normal a => k a
  | Throw e => Throw e
  end.

(** [try { body } catch (err) { handler }] *)
Definition tryCatch {A} (body : Completion A) (handler : JsError -> Completion A)
  : Completion A :=
  match body with
  | Normal a => Normal a
  | Throw e => handler e
  end.

Definition typeError (msg : jsstring) : JsError :=
  {| err_name := lit "TypeError"; err_code := None;
     err_message := msg; err_response := None |}.

(** ToBoolean *)
Definition truthy (v : JsVal) : bool :=
  match v with
  | JUndefined | JNull => false
  | JBool b => b
  | JNum n => num_truthy n
  | JStr s => match s with [] => false | _ => true end
  | JArr _ | JObj _ => true
  end.

Definition nullish (v : JsVal) : bool :=
  match v with
  | JUndefined | JNull => true
  | _ => false
  end.

Fixpoint lookup (k : jsstring) (fields : list (jsstring * JsVal)) : JsVal :=
  match fields with
  | [] => JUndefined
  | (k', v) :: rest => if Str.eqb k k' then v else lookup k rest
  end.

(** [v.k] on a value that is neither null nor undefined, for the property
    names this program reads (choices, message, content, text, error,
    topic): none of them is defined on the String, Number, Boolean or Array
    prototypes, so only an object can have one. *)
Definition prop (v : JsVal) (k : jsstring) : JsVal :=
  match v with
  | JObj fields => lookup k fields
  | _ => JUndefined
  end.

(** [v.k]: a read on null or undefined throws a TypeError. *)
Definition get (v : JsVal) (k : jsstring) : Completion JsVal :=
  if nullish v
  then Throw (typeError (lit "Cannot read properties of null or undefined"))
  else Normal (prop v k).

(** [v?.k] *)
Definition optGet (v : JsVal) (k : jsstring) : JsVal :=
  if nullish v then JUndefined else prop v k.

(** [a || b] *)
Definition or (a b : JsVal) : JsVal := if truthy a then a else b.

Definition isArray (v : JsVal) : bool :=
  match v with JArr _ => true | _ => false end.

(** [arr.length] and [arr[0]] of an array. *)
Definition arrayLength (v : JsVal) : nat :=
  match v with JArr items => length items | _ => 0 end.

Definition item0 (v : JsVal) : JsVal :=
  match v with JArr (x :: _) => x | _ => JUndefined end.

(** ToString, as a template literal applies it to a JSON value whose
    conversion does not throw (an object without a toString key of its
    own); [Render.toStringOf] has the failure. *)
Fixpoint toStr (v : JsVal) : jsstring :=
  match v with
  | JUndefined => lit "undefined"
  | JNull => lit "null"
  | JBool true => lit "true"
  | JBool false => lit "false"
  | JNum n => num_text n
  | JStr s => s
  | JArr items =>
      join (lit ",")
        (map (fun x => match x with
                       | JUndefined | JNull => []
                       | _ => toStr x
                       end) items)
  | JObj _ => lit "[object Object]"
  end.

End Js.

Import Js.

Declare Scope js_scope.
Delimit Scope js_scope with js.
Notation "x <- c ;; k" := (bind c (fun x => k))
  (at level 100, c at next level, right associativity) : js_scope.
Notation "'ret' v" := (Normal v) (at level 10, v at level 9) : js_scope.
Local Open Scope js_scope.

(* ================================================================== *)
(** ** services/aiClient.js *)
(* ================================================================== *)

Module AiClient.

Definition fallbackModel : jsstring := lit "meta-llama/llama-3.2-3b-instruct:free".

Definition alternativeFreeModels : list jsstring :=
  [ lit "meta-llama/llama-3.2-3b-instruct:free";
    lit "meta-llama/llama-3.1-8b-instruct:free";
    lit "google/gemini-flash-1.5:free";
    lit "mistralai/mistral-7b-instruct:free";
    lit "qwen/qwen-2-7b-instruct:free" ].

(** The variables of [process.env] the generation path reads; a variable
    is a string or is not set. *)
Record Env := {
  OPENROUTER_API_KEY : option jsstring;
  AI_MODEL : option jsstring
}.

(** [process.env.X || ''] *)
Definition envOrEmpty (x : option jsstring) : jsstring :=
  match x with Some s => s | None => [] end.

(** [(process.env.AI_MODEL || '').trim() || fallbackModel] *)
Definition configuredModel (env : Env) : jsstring :=
  match trim (envOrEmpty (AI_MODEL env)) with
  | [] => fallbackModel
  | m => m
  end.

Definition systemPrompt : jsstring :=
  lit "You are a concise blog writer specializing in B2B SaaS and open-source Web3 infrastructure topics. Return short markdown articles (<=250 words) with a title and a few paragraphs. Focus exclusively on topics related to B2B SaaS (product-led growth, customer success, pricing strategies, go-to-market, retention, etc.) or open-source Web3 infrastructure (blockchain networks, decentralized storage, smart contracts, DeFi protocols, DAOs, etc.).".

(** function normalizeGeneratedText(response) *)
Definition normalizeGeneratedText (response : JsVal) : Completion JsVal :=
  if negb (truthy response) then ret JNull else
  let fallthrough :=
    match response with
    | JStr _ => ret response                               (* typeof response === 'string' *)
    | _ =>
        if truthy (prop response (lit "content")) then ret (prop response (lit "content"))
        else if truthy (prop response (lit "text")) then ret (prop response (lit "text"))
        else ret JNull
    end in
  let choices := prop response (lit "choices") in
  if truthy choices && isArray choices && (0 <? arrayLength choices)%nat then
    let choice := item0 choices in
    message <- get choice (lit "message") ;;
    if truthy message && truthy (prop message (lit "content"))
    then ret (prop message (lit "content"))
    else
      text <- get choice (lit "text") ;;
      if truthy text then ret text else fallthrough
  else fallthrough.

Record Message := { role : jsstring; msg_content : jsstring }.

(** The request body of a chat completion.  The numeric sampling settings
    ([max_tokens], [temperature], [top_p]) are constants of the
    configuration and are left out. *)
Record Payload := { model : jsstring; messages : list Message }.

(** function buildOpenRouterPayload(prompt, model) *)
Definition buildOpenRouterPayload (prompt model : jsstring) : Payload :=
  {| model := model;
     messages := [ {| role := lit "system"; msg_content := systemPrompt |};
                   {| role := lit "user"; msg_content := prompt |} ] |}.

(** The object [formatHttpError] returns; an absent key is [None]
    (a read of it gives undefined). *)
Record ErrorInfo := {
  info_status : option Z;
  info_data : option JsVal;
  info_message : option JsVal;
  info_error : option jsstring
}.

Definition orStr (a b : jsstring) : jsstring :=
  match a with [] => b | _ => a end.

Definition optEqb (a : option jsstring) (b : jsstring) : bool :=
  match a with Some s => Str.eqb s b | None => false end.

(** function formatHttpError(err), on a thrown error object *)
Definition formatHttpError (err : JsError) : ErrorInfo :=
  match err_response err with
  | Some response =>
      {| info_status := Some (status response);
         info_data := Some (data response);
         info_message :=
           Some (or (optGet (optGet (data response) (lit "error")) (lit "message"))
                    (JStr (err_message err)));
         info_error := None |}
  | None =>
      if Str.eqb (err_name err) (lit "AbortError")
         || optEqb (err_code err) (lit "ECONNABORTED")
      then {| info_status := None; info_data := None; info_message := None;
              info_error := Some (lit "Request timed out") |}
      else {| info_status := None; info_data := None; info_message := None;
              info_error := Some (orStr (err_message err) (lit "Unknown error")) |}
  end.

(** An external call, as it leaves the process. *)
Inductive Call :=
| GetModels (token : jsstring)
| PostChat (token : jsstring) (payload : Payload).

(** The external service, scripted: what the models listing answers for a
    token, and what the i-th chat-completion request of a generation
    answers ([i] counts from 0).  [Normal d] is a response with body [d];
    [Throw e] is a rejection (an error status, a timeout, a network
    failure). *)
Record Network := {
  getModels : jsstring -> Completion JsVal;
  postChat : nat -> jsstring -> Payload -> Completion JsVal
}.

(** [err.response?.status === code] *)
Definition responseStatusIs (err : JsError) (code : Z) : bool :=
  match err_response err with
  | Some response => (status response =? code)%Z
  | None => false
  end.

(** async function verifyToken(token).  After a listing that resolves, the
    body only logs; whatever it throws there is caught by the same handler
    and carries no [response], so the result is [true] on that path. *)
Definition verifyToken (net : Network) (token : jsstring) : bool :=
  match getModels net token with
  | Normal _ => true
  | Throw err => if responseStatusIs err 401 then false else true
  end.

(** [const modelsToTry = [configuredModel]; ... push(...)] *)
Definition modelsToTry (configured : jsstring) : list jsstring :=
  [configured] ++
  (if negb (existsb (Str.eqb configured) alternativeFreeModels)
   then alternativeFreeModels
   else filter (fun m => negb (Str.eqb m configured)) alternativeFreeModels).

(** [new Set(xs)], spread back into an array: insertion order, an element
    already present is not added again. *)
Definition setAdd (seen : list jsstring) (x : jsstring) : list jsstring :=
  if existsb (Str.eqb x) seen then seen else seen ++ [x].

Definition newSet (xs : list jsstring) : list jsstring := fold_left setAdd xs [].

Definition uniqueModels (configured : jsstring) : list jsstring :=
  newSet (modelsToTry configured).

Definition statusIs (info : ErrorInfo) (code : Z) : bool :=
  match info_status info with
  | Some s => (s =? code)%Z
  | None => false
  end.

(** The [for (const model of uniqueModels)] loop.  [sent] is the list of
    requests posted so far; the result is the text returned from inside
    the loop, or [JNull] when the loop ends (by [break] or exhaustion). *)
Fixpoint tryModels (net : Network) (token prompt : jsstring)
         (models : list jsstring) (sent : list Payload) : JsVal * list Payload :=
  match models with
  | [] => (JNull, sent)
  | model :: rest =>
      let payload := buildOpenRouterPayload prompt model in
      let sent' := sent ++ [payload] in
      match (data <- postChat net (length sent) token payload ;;
             normalizeGeneratedText data) with
      | Normal text =>
          if truthy text then (text, sent')
          else tryModels net token prompt rest sent'
      | Throw err =>
          let errorInfo := formatHttpError err in
          if statusIs errorInfo 401 then (JNull, sent')        (* break *)
          else tryModels net token prompt rest sent'
      end
  end.

(** async function generateViaOpenRouter(prompt): the value returned and
    the external calls made, in order. *)
Definition generateViaOpenRouter (env : Env) (net : Network) (prompt : jsstring)
  : JsVal * list Call :=
  match OPENROUTER_API_KEY env with
  | None | Some [] => (JNull, [])                              (* !token *)
  | Some token =>
      if negb (verifyToken net token) then (JNull, [GetModels token])
      else
        let (text, sent) :=
          tryModels net token prompt (uniqueModels (configuredModel env)) [] in
        (text, GetModels token :: map (PostChat token) sent)
  end.

Record GenerationResult := { title : jsstring; content : jsstring }.

Definition fallbackParagraphs (topic : jsstring) : list jsstring :=
  [ lit "In today's fast-paced landscape, " ++ topic
      ++ lit " continues to shape how teams deliver value.";
    lit "Practitioners emphasize iterative learning, pragmatic tooling, and measurable outcomes as the best path to sustainable progress.";
    lit "Looking ahead, expect lightweight automation, sensible defaults, and a human-first perspective to remain central to successful "
      ++ topic ++ lit " initiatives." ].

(** function generateFallback(topic) *)
Definition generateFallback (topic : JsVal) : GenerationResult :=
  let paragraphs := fallbackParagraphs (toStr topic) in
  {| title := lit "Fallback article on " ++ toStr topic;
     content := join [LF; LF] paragraphs |}.

(** The parsing block of [generateArticle], on a string [llmResult]. *)
Definition parseGenerated (topic : JsVal) (llmResult : jsstring) : GenerationResult :=
  let lines := filter (fun l => truthy (JStr l)) (split LF (trim llmResult)) in
  let titleLine := match lines with l :: _ => l | [] => [] end in   (* lines[0] || '' *)
  let titleLine := trim (stripHeading titleLine) in
  let title := orStr (slice0 140 titleLine) (lit "New article on " ++ toStr topic) in
  let contentLines := tl lines in                                    (* lines.slice(1) *)
  let content :=
    if (0 <? length contentLines)%nat
    then trim (join [LF] contentLines)
    else trim llmResult in
  {| title := title; content := content |}.

(** The receiver of [llmResult.trim()]: only a string has the method;
    on any other value the call throws a TypeError. *)
Definition stringReceiver (v : JsVal) : Completion jsstring :=
  match v with
  | JStr s => ret s
  | _ => Throw (typeError (lit "llmResult.trim is not a function"))
  end.

Definition promptFor (topic : JsVal) : jsstring :=
  lit "Write a concise blog post about " ++ [QUOTE] ++ toStr topic ++ [QUOTE]
  ++ lit ". The article must focus on B2B SaaS or open-source Web3 infrastructure topics. Include a clear title followed by 2-4 short paragraphs. Do not write about general engineering productivity, software development practices, or generic tech topics - only B2B SaaS or Web3 infrastructure.".

(** export async function generateArticle(topic): the completion of the
    returned promise, and the external calls made.  The topic is converted
    to a string by [toStr], first of all in the log line ahead of the try
    block: the definition is of topics whose conversion does not throw. *)
Definition generateArticle (env : Env) (net : Network) (topic : JsVal)
  : Completion GenerationResult * list Call :=
  let prompt := promptFor topic in
  let (llmResult, calls) := generateViaOpenRouter env net prompt in
  (tryCatch
     (if truthy llmResult then
        s <- stringReceiver llmResult ;;
        ret (parseGenerated topic s)
      else ret (generateFallback topic))
     (fun _ => ret (generateFallback topic)),
   calls).

End AiClient.

(* ================================================================== *)
(** ** db.js: the articles table *)
(* ================================================================== *)

Module Store.

(** A row of [articles(id, title, content, created_at)]. *)
Record Row := {
  id : Z;
  row_title : jsstring;
  row_content : jsstring;
  created_at : jsstring
}.

(** A bound statement parameter: an integer ([this.lastID]) or a text (a
    route parameter). *)
Inductive SqlParam :=
| PInt (z : Z)
| PText (s : jsstring).

(** The database behind the connection [db].  Statements run one at a
    time.  [fault = Some e] is a store that cannot be reached: every
    statement calls back with [e] and changes nothing. *)
Record Db := {
  rows : list Row;                        (* in insertion order *)
  sequence : Z;                           (* AUTOINCREMENT: last id assigned *)
  now : jsstring;                         (* CURRENT_TIMESTAMP *)
  fault : option JsError;
  integerOfText : jsstring -> option Z    (* the engine's reading of a TEXT
                                             operand compared with the key *)
}.

Definition withRows (db : Db) (rs : list Row) (seq : Z) : Db :=
  {| rows := rs; sequence := seq; now := now db; fault := fault db;
     integerOfText := integerOfText db |}.

(** The callback convention [(err, result)], as a completion. *)
Definition run {A} (db : Db) (result : A) : Completion A :=
  match fault db with
  | Some e => Throw e
  | None => ret result
  end.

(** SELECT COUNT( * ) AS count FROM articles *)
Definition countAll (db : Db) : Completion Z :=
  run db (Z.of_nat (length (rows db))).

Definition maxId (rs : list Row) : Z :=
  fold_right (fun r m => Z.max (id r) m) 0%Z rs.

(** INSERT INTO articles (title, content) VALUES (?, ?); the result is
    [this.lastID].  An AUTOINCREMENT key is one more than the largest id
    ever assigned.  Ids are kept as integers and texts as the units given:
    this is what the engine and the driver do for an id below 2^53 and a
    well-formed text. *)
Definition insert (db : Db) (title content : jsstring) : Completion Z * Db :=
  match fault db with
  | Some e => (Throw e, db)
  | None =>
      let newId := (Z.max (sequence db) (maxId (rows db)) + 1)%Z in
      let row := {| id := newId; row_title := title; row_content := content;
                    created_at := now db |} in
      (ret newId, withRows db (rows db ++ [row]) newId)
  end.

Definition keyMatches (db : Db) (p : SqlParam) (r : Row) : bool :=
  match p with
  | PInt z => (id r =? z)%Z
  | PText s => match integerOfText db s with
               | Some z => (id r =? z)%Z
               | None => false
               end
  end.

(** SELECT id, title, content, created_at FROM articles WHERE id = ?
    through [db.get]: the first matching row, or undefined. *)
Definition selectById (db : Db) (p : SqlParam) : Completion (option Row) :=
  run db (find (keyMatches db p) (rows db)).

(** SELECT 1 *)
Definition probe (db : Db) : Completion unit := run db tt.

End Store.

(* ================================================================== *)
(** ** services/articleService.js *)
(* ================================================================== *)

Module ArticleService.
Import Store AiClient.

Record Sample := { sample_title : jsstring; sample_content : jsstring }.

Definition samples : list Sample :=
  [
    {| sample_title := lit "Building Product-Led Growth in B2B SaaS";
       sample_content := lit "Product-Led Growth (PLG) has become the dominant go-to-market strategy for modern B2B SaaS companies. Unlike traditional sales-led approaches, PLG focuses on delivering immediate value through the product itself, allowing users to experience core functionality before committing to a purchase. Successful PLG implementations require seamless onboarding flows, in-app guidance, and freemium models that showcase your product's unique value proposition. Key metrics to track include time-to-value, feature adoption rates, and conversion from free to paid tiers. Companies like Slack, Notion, and Figma have demonstrated that when done right, PLG can dramatically reduce customer acquisition costs while increasing organic growth through viral loops and word-of-mouth referrals." |};
    {| sample_title := lit "Decentralized Storage Networks: The Foundation of Web3 Infrastructure";
       sample_content := lit "Decentralized storage networks like IPFS, Arweave, and Filecoin are revolutionizing how data is stored and accessed on the internet. Unlike traditional cloud storage, these networks distribute data across thousands of nodes, eliminating single points of failure and reducing censorship risks. IPFS (InterPlanetary File System) uses content-addressing to create a distributed web where files are identified by their cryptographic hash rather than location. Arweave offers permanent storage through a novel consensus mechanism called Proof of Access, while Filecoin creates a marketplace for storage providers. These technologies are critical infrastructure for Web3 applications, enabling decentralized social networks, NFT marketplaces, and blockchain-based applications that require reliable, censorship-resistant data storage." |};
    {| sample_title := lit "Customer Success Metrics That Drive B2B SaaS Retention";
       sample_content := lit "In B2B SaaS, customer retention is the lifeblood of sustainable growth. While acquisition metrics get attention, retention metrics directly impact revenue and profitability. Key indicators include Net Revenue Retention (NRR), which measures expansion revenue from existing customers, and Customer Lifetime Value (LTV) to Customer Acquisition Cost (CAC) ratios. Product engagement scores, feature adoption rates, and time-to-first-value are leading indicators of churn risk. Successful SaaS companies implement health scoring systems that combine product usage, support ticket volume, and payment behavior to identify at-risk accounts early. Proactive outreach, personalized onboarding, and strategic account management can turn potential churn into expansion opportunities, transforming satisfied customers into advocates who drive referrals and case studies." |}
  ].

(** [samples.forEach(a => stmt.run(a.title, a.content))]: the statement is
    run without a callback, its result is dropped. *)
Definition insertAll (db : Db) (l : list Sample) : Db :=
  fold_left (fun d a => snd (insert d (sample_title a) (sample_content a))) l db.

(** function seedIfEmpty(), with its callback run to completion. *)
Definition seedIfEmpty (db : Db) : Db :=
  match countAll db with
  | Throw _ => db                                   (* Seed check failed *)
  | Normal count => if (count =? 0)%Z then insertAll db samples else db
  end.

(** export function getArticle(id) *)
Definition getArticle (db : Db) (idParam : SqlParam) : Completion (option Row) :=
  selectById db idParam.

Definition defaultTopic : jsstring :=
  lit "B2B SaaS and open-source Web3 infrastructure".

(** export async function createArticle(topic = default): the completion
    of the promise, the database afterwards, the external calls made. *)
Definition createArticle (env : Env) (net : Network) (db : Db) (topic : JsVal)
  : Completion (option Row) * Db * list Call :=
  let topic := match topic with JUndefined => JStr defaultTopic | _ => topic end in
  let (generated, calls) := generateArticle env net topic in
  match generated with
  | Throw e => (Throw e, db, calls)
  | Normal g =>
      match insert db (title g) (content g) with
      | (Throw err, db') => (Throw err, db', calls)
      | (Normal lastID, db') => (selectById db' (PInt lastID), db', calls)
      end
  end.

End ArticleService.

(* ================================================================== *)
(** ** routes/articles.js and the health route of index.js *)
(* ================================================================== *)

Module Routes.
Import Store AiClient ArticleService.

(** What [res.json] is given: a JSON object built by the handler, or rows
    of the table passed through. *)
Inductive Body :=
| JsonBody (v : JsVal)
| ArticleBody (r : Row)
| ArticlesBody (rs : list Row).

Record Response := { code : Z; body : Body }.

(** [res.status(c).json({ error, details: err.message })] *)
Definition errorJson (c : Z) (summary : jsstring) (err : JsError) : Response :=
  {| code := c;
     body := JsonBody (JObj [ (lit "error", JStr summary);
                              (lit "details", JStr (err_message err)) ]) |}.

(** router.get('/'), on the completion of [listArticles()] *)
Definition listRoute (articles : Completion (list Row)) : Completion Response :=
  tryCatch
    (rs <- articles ;; ret {| code := 200; body := ArticlesBody rs |})
    (fun err => ret (errorJson 500 (lit "Failed to fetch articles") err)).

(** router.get('/:id') *)
Definition getRoute (db : Db) (idParam : jsstring) : Completion Response :=
  tryCatch
    (article <- getArticle db (PText idParam) ;;
     match article with
     | None =>                                                  (* !article *)
         ret {| code := 404;
                body := JsonBody (JObj [ (lit "error", JStr (lit "Not found")) ]) |}
     | Some a => ret {| code := 200; body := ArticleBody a |}
     end)
    (fun err => ret (errorJson 500 (lit "Failed to fetch article") err)).

(** [req.body?.topic || 'B2B SaaS and open-source Web3 infrastructure'] *)
Definition requestTopic (reqBody : JsVal) : JsVal :=
  or (optGet reqBody (lit "topic"))
     (JStr (lit "B2B SaaS and open-source Web3 infrastructure")).

(** router.post('/generate'): the response, the database afterwards and
    the external calls made. *)
Definition generateRoute (env : Env) (net : Network) (db : Db) (reqBody : JsVal)
  : Completion Response * Db * list Call :=
  let topic := requestTopic reqBody in
  let '(created, db', calls) := createArticle env net db topic in
  (tryCatch
     (article <- created ;;
      ret {| code := 201;
             body := match article with
                     | Some a => ArticleBody a
                     | None => JsonBody JUndefined
                     end |})
     (fun err => ret (errorJson 500 (lit "Failed to generate article") err)),
   db', calls).

(** router.get('/diagnostics/ai'), on the completion of
    [testOpenRouterConnection()] *)
Definition diagnosticsRoute (diagnostics : Completion JsVal) : Completion Response :=
  tryCatch
    (d <- diagnostics ;; ret {| code := 200; body := JsonBody d |})
    (fun err => ret (errorJson 500 (lit "Failed to run diagnostics") err)).

(** app.get('/health'); [timestamp] is [new Date().toISOString()]. *)
Definition healthRoute (db : Db) (timestamp : jsstring) : Completion Response :=
  tryCatch
    (_ <- probe db ;;
     ret {| code := 200;
            body := JsonBody (JObj [ (lit "ok", JBool true);
                                     (lit "db", JStr (lit "connected"));
                                     (lit "timestamp", JStr timestamp) ]) |})
    (fun err =>
       ret {| code := 503;
              body := JsonBody (JObj [ (lit "ok", JBool false);
                                       (lit "db", JStr (lit "disconnected"));
                                       (lit "error", JStr (err_message err)) ]) |}).

End Routes.

(* ================================================================== *)
(** ** ToString with its failure *)
(* ================================================================== *)

Module Render.

(** Induction on a value that reaches the elements of an array. *)
Fixpoint JsVal_elements_ind (P : JsVal -> Prop)
         (atom : forall v, isArray v = false -> P v)
         (array : forall items, Forall P items -> P (JArr items))
         (v : JsVal) : P v :=
  match v with
  | JArr items =>
      array items
        ((fix all (l : list JsVal) : Forall P l :=
            match l with
            | [] => Forall_nil P
            | x :: rest =>
                Forall_cons x (JsVal_elements_ind atom array x) (all rest)
            end) items)
  | JUndefined => atom JUndefined eq_refl
  | JNull => atom JNull eq_refl
  | JBool b => atom (JBool b) eq_refl
  | JNum n => atom (JNum n) eq_refl
  | JStr s => atom (JStr s) eq_refl
  | JObj fields => atom (JObj fields) eq_refl
  end.

(** The object has an own property of that name. *)
Definition hasOwn (k : jsstring) (fields : list (jsstring * JsVal)) : bool :=
  existsb (fun kv => Str.eqb k (fst kv)) fields.

(** ToString, as a template literal applies it to a value parsed from
    JSON, with its failure.  An object converts through its toString
    method: the inherited one gives [object Object]; an own toString
    property, which JSON cannot make callable, leaves only valueOf, which
    gives the object back, so the conversion throws a TypeError.  An array
    converts its elements in order and joins them with commas, null and
    undefined giving the empty string.  [Js.toStr] is this function where
    it does not throw. *)
Fixpoint toStringOf (v : JsVal) : Completion jsstring :=
  match v with
  | JUndefined => ret (lit "undefined")
  | JNull => ret (lit "null")
  | JBool true => ret (lit "true")
  | JBool false => ret (lit "false")
  | JNum n => ret (num_text n)
  | JStr s => ret s
  | JArr items =>
      parts <- (fix each (l : list JsVal) : Completion (list jsstring) :=
                  match l with
                  | [] => ret []
                  | x :: rest =>
                      part <- match x with
                              | JUndefined | JNull => ret []
                              | _ => toStringOf x
                              end ;;
                      others <- each rest ;;
                      ret (part :: others)
                  end) items ;;
      ret (join (lit ",") parts)
  | JObj fields =>
      if hasOwn (lit "toString") fields
      then Throw (typeError (lit "Cannot convert object to primitive value"))
      else ret (lit "[object Object]")
  end.

End Render.

(* ================================================================== *)
(** ** services/aiClient.js: token verification and diagnostics *)
(* ================================================================== *)

Module AiDiagnostics.
Import AiClient Render.

(** [v.includes(needle)] on a truthy value: a string and an array have the
    method, nothing else that JSON can hold has. *)
Definition callIncludes (v : JsVal) (needle : jsstring) : Completion bool :=
  match v with
  | JStr s => ret (Str.includes needle s)
  | JArr items =>
      ret (existsb (fun x => match x with
                             | JStr s => Str.eqb s needle
                             | _ => false
                             end) items)
  | _ => Throw (typeError (lit "m.id.includes is not a function"))
  end.

(** The callback [m => m.id && m.id.includes(':free')], by the truthiness
    that [filter] reads off its result. *)
Definition isFreeModel (m : JsVal) : Completion bool :=
  id <- get m (lit "id") ;;
  if truthy id then callIncludes id (lit ":free") else ret false.

(** [items.filter(f)]: the elements are visited in order, a throw of the
    callback ends the visit. *)
Fixpoint filterM (f : JsVal -> Completion bool) (items : list JsVal)
  : Completion (list JsVal) :=
  match items with
  | [] => ret []
  | x :: rest =>
      keep <- f x ;;
      kept <- filterM f rest ;;
      ret (if keep then x :: kept else kept)
  end.

(** [listing.filter(m => m.id && m.id.includes(':free')).map(m => m.id)] on
    the truthy value [response.data.data]. *)
Definition freeModelIds (listing : JsVal) : Completion (list JsVal) :=
  match listing with
  | JArr items =>
      kept <- filterM isFreeModel items ;;
      ret (map (fun m => prop m (lit "id")) kept)
  | _ => Throw (typeError (lit "response.data.data.filter is not a function"))
  end.

(** async function verifyToken(token), with the work of its try block: the
    listing is read and the free models are collected for the log. *)
Definition verifyTokenFull (net : Network) (token : jsstring) : Completion bool :=
  tryCatch
    (responseData <- getModels net token ;;
     let listing := optGet responseData (lit "data") in
     _ <- (if truthy listing
           then freeModels <- freeModelIds listing ;; ret (firstn 5 freeModels)
           else ret []) ;;
     ret true)
    (fun err => if responseStatusIs err 401 then ret false else ret true).

(** [JSON.stringify(v).substring(0, limit)], kept symbolic: the value that
    is serialised and the cut. *)
Inductive JsonText :=
| JsonPrefix (v : JsVal) (limit : nat).

(** The object [testOpenRouterConnection] builds and returns; a key that is
    never assigned is [None]. *)
Record Diagnostics := {
  hasApiKey : bool;
  apiKeyLength : nat;
  diag_configuredModel : jsstring;
  diag_fallbackModel : jsstring;
  errors : list jsstring;
  warnings : list jsstring;
  success : bool;
  availableFreeModels : option (list JsVal);
  modelCount : option nat;
  testResponse : option jsstring;
  rawResponse : option JsonText;
  statusCode : option Z;
  errorDetails : option JsVal
}.

(** What the function has done so far: the object under construction and
    the external calls made. *)
Record Progress := { diag : Diagnostics; calls : list Call }.

(** A step of the function: it completes or throws, and either way leaves
    the object and the calls as it changed them. *)
Definition Step (A : Type) : Type := Progress -> Completion A * Progress.

Definition stepRet {A} (a : A) : Step A := fun p => (Normal a, p).

Definition stepBind {A B} (c : Step A) (k : A -> Step B) : Step B :=
  fun p => match c p with
           | (Normal a, p') => k a p'
           | (Throw e, p') => (Throw e, p')
           end.

Definition stepLift {A} (c : Completion A) : Step A := fun p => (c, p).

Definition stepTry {A} (body : Step A) (handler : JsError -> Step A) : Step A :=
  fun p => match body p with
           | (Normal a, p') => (Normal a, p')
           | (Throw e, p') => handler e p'
           end.

Definition assign (f : Diagnostics -> Diagnostics) : Step unit :=
  fun p => (Normal tt, {| diag := f (diag p); calls := calls p |}).

Definition request (c : Call) (answer : Completion JsVal) : Step JsVal :=
  fun p => (answer, {| diag := diag p; calls := calls p ++ [c] |}).

Definition pushError (msg : jsstring) (d : Diagnostics) : Diagnostics :=
  {| hasApiKey := hasApiKey d; apiKeyLength := apiKeyLength d;
     diag_configuredModel := diag_configuredModel d;
     diag_fallbackModel := diag_fallbackModel d;
     errors := errors d ++ [msg]; warnings := warnings d; success := success d;
     availableFreeModels := availableFreeModels d; modelCount := modelCount d;
     testResponse := testResponse d; rawResponse := rawResponse d;
     statusCode := statusCode d; errorDetails := errorDetails d |}.

Definition pushWarning (msg : jsstring) (d : Diagnostics) : Diagnostics :=
  {| hasApiKey := hasApiKey d; apiKeyLength := apiKeyLength d;
     diag_configuredModel := diag_configuredModel d;
     diag_fallbackModel := diag_fallbackModel d;
     errors := errors d; warnings := warnings d ++ [msg]; success := success d;
     availableFreeModels := availableFreeModels d; modelCount := modelCount d;
     testResponse := testResponse d; rawResponse := rawResponse d;
     statusCode := statusCode d; errorDetails := errorDetails d |}.

Definition setFreeModels (ids : list JsVal) (d : Diagnostics) : Diagnostics :=
  {| hasApiKey := hasApiKey d; apiKeyLength := apiKeyLength d;
     diag_configuredModel := diag_configuredModel d;
     diag_fallbackModel := diag_fallbackModel d;
     errors := errors d; warnings := warnings d; success := success d;
     availableFreeModels := Some (firstn 10 ids); modelCount := Some (length ids);
     testResponse := testResponse d; rawResponse := rawResponse d;
     statusCode := statusCode d; errorDetails := errorDetails d |}.

Definition setSuccess (d : Diagnostics) : Diagnostics :=
  {| hasApiKey := hasApiKey d; apiKeyLength := apiKeyLength d;
     diag_configuredModel := diag_configuredModel d;
     diag_fallbackModel := diag_fallbackModel d;
     errors := errors d; warnings := warnings d; success := true;
     availableFreeModels := availableFreeModels d; modelCount := modelCount d;
     testResponse := testResponse d; rawResponse := rawResponse d;
     statusCode := statusCode d; errorDetails := errorDetails d |}.

Definition setTestResponse (text : jsstring) (d : Diagnostics) : Diagnostics :=
  {| hasApiKey := hasApiKey d; apiKeyLength := apiKeyLength d;
     diag_configuredModel := diag_configuredModel d;
     diag_fallbackModel := diag_fallbackModel d;
     errors := errors d; warnings := warnings d; success := success d;
     availableFreeModels := availableFreeModels d; modelCount := modelCount d;
     testResponse := Some text; rawResponse := rawResponse d;
     statusCode := statusCode d; errorDetails := errorDetails d |}.

Definition setRawResponse (raw : JsonText) (d : Diagnostics) : Diagnostics :=
  {| hasApiKey := hasApiKey d; apiKeyLength := apiKeyLength d;
     diag_configuredModel := diag_configuredModel d;
     diag_fallbackModel := diag_fallbackModel d;
     errors := errors d; warnings := warnings d; success := success d;
     availableFreeModels := availableFreeModels d; modelCount := modelCount d;
     testResponse := testResponse d; rawResponse := Some raw;
     statusCode := statusCode d; errorDetails := errorDetails d |}.

Definition setFailure (info : ErrorInfo) (d : Diagnostics) : Diagnostics :=
  {| hasApiKey := hasApiKey d; apiKeyLength := apiKeyLength d;
     diag_configuredModel := diag_configuredModel d;
     diag_fallbackModel := diag_fallbackModel d;
     errors := errors d; warnings := warnings d; success := success d;
     availableFreeModels := availableFreeModels d; modelCount := modelCount d;
     testResponse := testResponse d; rawResponse := rawResponse d;
     statusCode := info_status info; errorDetails := info_data info |}.

Definition orUndefined (v : option JsVal) : JsVal :=
  match v with Some x => x | None => JUndefined end.

(** [errorInfo.message || errorInfo.error] *)
Definition interpolated (info : ErrorInfo) : JsVal :=
  or (orUndefined (info_message info))
     (match info_error info with Some e => JStr e | None => JUndefined end).

(** [errorInfo.message || errorInfo.error] inside a template literal: the
    message can be any value the service sent, and its conversion to a
    string can throw. *)
Definition messageOrError (info : ErrorInfo) : Completion jsstring :=
  toStringOf (interpolated info).

Definition testPrompt : jsstring :=
  lit "Say " ++ [QUOTE] ++ lit "test" ++ [QUOTE] ++ lit " in one word.".

(** [text.substring(0, 100)]: only a string has the method. *)
Definition callSubstring (text : JsVal) (n : nat) : Completion jsstring :=
  match text with
  | JStr s => ret (firstn n s)
  | _ => Throw (typeError (lit "text.substring is not a function"))
  end.

(** [JSON.stringify(data).substring(0, n)]: the serialisation of undefined
    is undefined, which has no method. *)
Definition stringifyPrefix (data : JsVal) (n : nat) : Completion JsonText :=
  match data with
  | JUndefined =>
      Throw (typeError (lit "Cannot read properties of undefined (reading 'substring')"))
  | _ => ret (JsonPrefix data n)
  end.

(** The first try block of [testOpenRouterConnection]: [true] when the
    function goes on, [false] when the handler returns the object. *)
Definition verificationStage (env : Env) (net : Network) (token : jsstring) : Step bool :=
  stepTry
    (stepBind (request (GetModels token) (getModels net token)) (fun responseData =>
     let listing := optGet responseData (lit "data") in
     if truthy listing then
       stepBind (stepLift (freeModelIds listing)) (fun freeModels =>
       stepBind (assign (setFreeModels freeModels)) (fun _ =>
       let modelAvailable :=
         existsb (fun m => match m with
                           | JStr s => Str.eqb s (configuredModel env)
                           | _ => false
                           end) freeModels in
       if negb modelAvailable then
         stepBind (assign (pushWarning
                             (lit "Configured model " ++ [QUOTE] ++ configuredModel env
                              ++ [QUOTE] ++ lit " not found in available free models")))
                  (fun _ => stepRet true)
       else stepRet true))
     else stepRet true))
    (fun err =>
       stepBind
         (assign (pushError
                    (if responseStatusIs err 401
                     then lit "API key is invalid (401 Unauthorized)"
                     else lit "Failed to verify API key: " ++ err_message err)))
         (fun _ => stepRet false)).

(** The second try block: one request, for the configured model.  Its
    handler can throw itself, while it builds the error line. *)
Definition generationStage (env : Env) (net : Network) (token : jsstring) : Step unit :=
  stepTry
    (let payload := buildOpenRouterPayload testPrompt (configuredModel env) in
     stepBind (request (PostChat token payload) (postChat net 0 token payload)) (fun data =>
     stepBind (stepLift (normalizeGeneratedText data)) (fun text =>
     if truthy text then
       stepBind (assign setSuccess) (fun _ =>
       stepBind (stepLift (callSubstring text 100)) (fun sample =>
       assign (setTestResponse sample)))
     else
       stepBind (assign (pushError (lit "API returned data but could not extract text")))
                (fun _ =>
       stepBind (stepLift (stringifyPrefix data 200)) (fun raw =>
       assign (setRawResponse raw))))))
    (fun err =>
       let errorInfo := formatHttpError err in
       stepBind (stepLift (messageOrError errorInfo)) (fun text =>
       stepBind (assign (pushError (lit "Generation test failed: " ++ text)))
                (fun _ => assign (setFailure errorInfo)))).

Definition initialDiagnostics (env : Env) : Diagnostics :=
  let token := envOrEmpty (OPENROUTER_API_KEY env) in
  {| hasApiKey := truthy (JStr token);
     apiKeyLength := length token;
     diag_configuredModel := configuredModel env;
     diag_fallbackModel := fallbackModel;
     errors := []; warnings := []; success := false;
     availableFreeModels := None; modelCount := None;
     testResponse := None; rawResponse := None;
     statusCode := None; errorDetails := None |}.

(** export async function testOpenRouterConnection(): the completion of the
    returned promise and the external calls made. *)
Definition testOpenRouterConnection (env : Env) (net : Network)
  : Completion Diagnostics * list Call :=
  let start := {| diag := initialDiagnostics env; calls := [] |} in
  match OPENROUTER_API_KEY env with
  | None | Some [] =>                                            (* !token *)
      (ret (pushError (lit "OPENROUTER_API_KEY is not set") (diag start)), [])
  | Some token =>
      match verificationStage env net token start with
      | (Throw e, p) => (Throw e, calls p)
      | (Normal false, p) => (ret (diag p), calls p)
      | (Normal true, p) =>
          match generationStage env net token p with
          | (Throw e, p') => (Throw e, calls p')
          | (Normal _, p') => (ret (diag p'), calls p')
          end
      end
  end.

End AiDiagnostics.

(* ================================================================== *)
(** ** services/articleJob.js and the settings of index.js *)
(* ================================================================== *)

Module Server.
Import Store AiClient ArticleService.

(** [process.env.CRON_SCHEDULE || '0 3 * * *'] *)
Definition defaultSchedule (CRON_SCHEDULE : option jsstring) : jsstring :=
  orStr (envOrEmpty CRON_SCHEDULE) (lit "0 3 * * *").

(** One firing of the scheduled callback of [startArticleJob]: the
    completion of the callback, the database afterwards, the external calls
    made. *)
Definition articleJobTick (env : Env) (net : Network) (db : Db)
  : Completion unit * Db * list Call :=
  let '(created, db', calls) := createArticle env net db JUndefined in
  (tryCatch (_ <- created ;; ret tt) (fun _ => ret tt), db', calls).

(** The database after [n] firings in a row. *)
Fixpoint articleJobTicks (env : Env) (net : Network) (n : nat) (db : Db) : Db :=
  match n with
  | O => db
  | S n' => articleJobTicks env net n' (snd (fst (articleJobTick env net db)))
  end.

Definition COMMA : N := 44.

(** The [origin] option handed to [cors]. *)
Inductive Origin :=
| AnyOrigin                           (* the string '*' *)
| Origins (allowed : list jsstring).

(** [process.env.ALLOWED_ORIGIN?.split(',') || '*']: an array is truthy,
    whatever it holds. *)
Definition corsOrigin (ALLOWED_ORIGIN : option jsstring) : Origin :=
  match ALLOWED_ORIGIN with
  | None => AnyOrigin
  | Some s => Origins (split COMMA s)
  end.

End Server.

(* ================================================================== *)
(** ** The properties, in the specification's words *)
(* ================================================================== *)

Module Spec.
Import Store AiClient ArticleService Routes.

(** A usable generation result: non-empty title of at most 140
    characters, non-empty content. *)
Definition usable (r : GenerationResult) : Prop :=
  title r <> [] /\ length (title r) <= 140 /\ content r <> [].

(** The text obtained from the external service for a topic, if any: the
    value of [llmResult] when it is a non-empty string. *)
Definition generatedText (env : Env) (net : Network) (topic : JsVal) : option jsstring :=
  match fst (generateViaOpenRouter env net (promptFor topic)) with
  | JStr (c :: s) => Some (c :: s)
  | _ => None
  end.

(** The topic is interpolated into each paragraph of the template. *)
Definition interpolatedInEach (topic : jsstring) : Prop :=
  Forall (fun p => includes topic p = true) (fallbackParagraphs topic).

(** Some unit of the string is not white space. *)
Definition hasInk (s : jsstring) : bool := existsb (fun c => negb (isWhiteSpace c)) s.

(** Duplicates removed, first-seen order kept. *)
Fixpoint keepFirstFrom (seen xs : list jsstring) : list jsstring :=
  match xs with
  | [] => []
  | x :: rest =>
      if existsb (Str.eqb x) seen then keepFirstFrom seen rest
      else x :: keepFirstFrom (x :: seen) rest
  end.

Definition keepFirst (xs : list jsstring) : list jsstring := keepFirstFrom [] xs.

(** The candidate list: the configured model, then every alternative
    model other than it, without duplicates. *)
Definition candidates (configured : jsstring) : list jsstring :=
  keepFirst (configured ::
             filter (fun a => negb (Str.eqb a configured)) alternativeFreeModels).

(** *** Candidate attempts *)


Definition yieldsText (o : Completion JsVal) (text : JsVal) : Prop :=
  exists d, o = Normal d /\ normalizeGeneratedText d = Normal text /\ truthy text = true.

Definition unauthorized (o : Completion JsVal) : Prop :=
  exists err response,
    o = Throw err /\ err_response err = Some response /\ status response = 401%Z.


(** The requests posted for the first [n] models. *)
Definition postsFor (token prompt : jsstring) (models : list jsstring) (n : nat)
  : list Call :=
  map (fun m => PostChat token (buildOpenRouterPayload prompt m)) (firstn n models).

(** *** Parsing of generated text *)

(** The lines of a text: the maximal runs between line feeds. *)
Fixpoint linesFrom (current : jsstring) (s : jsstring) : list jsstring :=
  match s with
  | [] => [current]
  | c :: s' =>
      if (c =? LF)%N then current :: linesFrom [] s'
      else linesFrom (current ++ [c]) s'
  end.

Definition nonEmptyLines (text : jsstring) : list jsstring :=
  filter (fun l => negb (Str.eqb l [])) (linesFrom [] text).

(** Leading heading markers removed, surrounding white space dropped. *)
Definition stripMarkers (line : jsstring) : jsstring := trim (dropHashes line).

Definition parsedTitle (topic raw : jsstring) : jsstring :=
  match nonEmptyLines (trim raw) with
  | [] => lit "New article on " ++ topic
  | first :: _ =>
      match stripMarkers first with
      | [] => lit "New article on " ++ topic
      | stripped => firstn 140 stripped
      end
  end.

Definition parsedContent (raw : jsstring) : jsstring :=
  match nonEmptyLines (trim raw) with
  | _ :: ((_ :: _) as rest) => trim (join [LF] rest)
  | _ => trim raw
  end.

(** *** Response-text normalisation *)

(** [choices[0]] when [choices] is a non-empty array. *)
Definition firstChoice (response : JsVal) : JsVal :=
  match optGet response (lit "choices") with
  | JArr (c :: _) => c
  | _ => JUndefined
  end.

(** The first choice of the response is null (or undefined). *)
Definition firstChoiceMissing (response : JsVal) : bool :=
  match optGet response (lit "choices") with
  | JArr (c :: _) => nullish c
  | _ => false
  end.

(** The five places a text is looked for, in priority order. *)
Definition textSources (response : JsVal) : list JsVal :=
  [ optGet (optGet (firstChoice response) (lit "message")) (lit "content");
    optGet (firstChoice response) (lit "text");
    match response with JStr _ => response | _ => JUndefined end;
    optGet response (lit "content");
    optGet response (lit "text") ].

Definition extractedText (response : JsVal) : JsVal :=
  match find truthy (textSources response) with
  | Some text => text
  | None => JNull
  end.

(** *** Seeding *)

Definition titleAndContent (r : Row) : jsstring * jsstring :=
  (row_title r, row_content r).

Definition sampleText (a : Sample) : jsstring * jsstring :=
  (sample_title a, sample_content a).

(** *** Responses of the HTTP API *)

(** The responses of the five routes, on a parsed request. *)
Inductive produced : Response -> Prop :=
| by_list articles r :
    listRoute articles = Normal r -> produced r
| by_get db idParam r :
    getRoute db idParam = Normal r -> produced r
| by_generate env net db reqBody r :
    fst (fst (generateRoute env net db reqBody)) = Normal r -> produced r
| by_diagnostics diagnostics r :
    diagnosticsRoute diagnostics = Normal r -> produced r
| by_health db timestamp r :
    healthRoute db timestamp = Normal r -> produced r.

Definition isString (v : JsVal) : Prop := exists s, v = JStr s.

(** The body is a JSON object with the named field holding a string. *)
Definition hasStringField (b : Body) (k : jsstring) : Prop :=
  exists fields, b = JsonBody (JObj fields) /\ isString (lookup k fields).

Definition errorWithDetails (r : Response) : Prop :=
  hasStringField (body r) (lit "error") /\ hasStringField (body r) (lit "details").

Definition isErrorResponse (r : Response) : Prop := (400 <= code r)%Z.

End Spec.

(* ================================================================== *)
(** ** Concrete inputs used below *)
(* ================================================================== *)

Module Scenario.
Import Store AiClient ArticleService Routes.

Definition daos : jsstring := lit "DAOs".

(** The middle paragraph of the fallback template. *)
Definition fixedParagraph : jsstring :=
  lit "Practitioners emphasize iterative learning, pragmatic tooling, and measurable outcomes as the best path to sustainable progress.".

(** A topic of 121 characters. *)
Definition longTopic : jsstring := repeat 97%N 121.

Definition noCredential : Env :=
  {| OPENROUTER_API_KEY := None; AI_MODEL := None |}.

Definition withCredential : Env :=
  {| OPENROUTER_API_KEY := Some (lit "sk-or-test"); AI_MODEL := None |}.

Definition httpError (code : Z) (message : jsstring) : JsError :=
  {| err_name := lit "AxiosError"; err_code := Some (lit "ERR_BAD_REQUEST");
     err_message := message;
     err_response := Some {| status := code; data := JObj [] |} |}.

Definition networkDown : JsError :=
  {| err_name := lit "AxiosError"; err_code := Some (lit "ENOTFOUND");
     err_message := lit "getaddrinfo ENOTFOUND openrouter.ai";
     err_response := None |}.

(** A service that cannot be reached. *)
Definition offline : Network :=
  {| getModels := fun _ => Throw networkDown;
     postChat := fun _ _ _ => Throw networkDown |}.

Definition chatBody (text : jsstring) : JsVal :=
  JObj [ (lit "choices",
          JArr [ JObj [ (lit "message", JObj [ (lit "content", JStr text) ]) ] ]) ].

Definition helloWorld : jsstring := lit "# Hello" ++ [LF] ++ lit "World".

(** The first two requests are rate limited, the third one answers. *)
Definition rateLimitedTwice : Network :=
  {| getModels := fun _ => Normal (JObj []);
     postChat := fun i _ _ =>
       match i with
       | 0 | 1 => Throw (httpError 429 (lit "Request failed with status code 429"))
       | 2 => Normal (chatBody helloWorld)
       | _ => Throw (httpError 500 (lit "Request failed with status code 500"))
       end |}.


(** Every request answers with white space only. *)
Definition blankAnswers : Network :=
  {| getModels := fun _ => Normal (JObj []);
     postChat := fun _ _ _ => Normal (chatBody [32; 32]%N) |}.

(** A body whose first choice is null, with a generic content field. *)
Definition nullChoice : JsVal :=
  JObj [ (lit "choices", JArr [ JNull ]); (lit "content", JStr (lit "hi")) ].

Definition emptyDb : Db :=
  {| rows := []; sequence := 0; now := lit "2025-01-01 00:00:00"; fault := None;
     integerOfText := fun _ => Some 1%Z |}.

(** The answer to a request for an article that is not there. *)
Definition notFound : Response :=
  {| code := 404;
     body := JsonBody (JObj [ (lit "error", JStr (lit "Not found")) ]) |}.

Definition sqliteError : JsError :=
  {| err_name := lit "Error"; err_code := Some (lit "SQLITE_CANTOPEN");
     err_message := lit "SQLITE_CANTOPEN: unable to open database file";
     err_response := None |}.

Definition unreachableDb : Db :=
  {| rows := []; sequence := 0; now := lit "2025-01-01 00:00:00";
     fault := Some sqliteError; integerOfText := fun _ => None |}.

End Scenario.

(* ================================================================== *)
(** ** Further properties and inputs *)
(* ================================================================== *)

Module Properties.
Import Store AiClient Render AiDiagnostics ArticleService Routes Server Spec Scenario.

(** The string has no white space at either end. *)
Definition trimmed (s : jsstring) : Prop := trim s = s.

(** An error raised inside the process: it carries no HTTP response. *)
Definition internal (e : JsError) : Prop := err_response e = None.

(** Ids grow along the table, in insertion order. *)
Definition increasingIds (db : Db) : Prop :=
  StronglySorted Z.lt (map id (rows db)).

(** [after] holds every row of [before], unchanged and in place, followed
    by [added]. *)
Definition appended (before after : Db) (added : list Row) : Prop :=
  rows after = rows before ++ added
  /\ fault after = fault before
  /\ now after = now before.

(** The topic [createArticle] works with: its default for undefined. *)
Definition effectiveTopic (topic : JsVal) : JsVal :=
  match topic with JUndefined => JStr defaultTopic | _ => topic end.

(** The database [createArticle] leaves. *)
Definition afterCreate (env : Env) (net : Network) (db : Db) (topic : JsVal) : Db :=
  snd (fst (createArticle env net db topic)).

(** The very request the diagnostics post. *)
Definition diagnosticPost (env : Env) (token : jsstring) : Call :=
  PostChat token (buildOpenRouterPayload testPrompt (configuredModel env)).

(** The first stage of the diagnostics goes through: the listing request
    resolves and its data, when present, can be read. *)
Definition listingReadable (net : Network) (token : jsstring) : bool :=
  match getModels net token with
  | Normal d =>
      if truthy (optGet d (lit "data"))
      then match freeModelIds (optGet d (lit "data")) with
           | Normal _ => true
           | Throw _ => false
           end
      else true
  | Throw _ => false
  end.

(** What the handler of the second stage does with a caught error: it
    throws when the message cannot be rendered, and records the failure
    otherwise. *)
Definition caught (err : JsError) (d : Diagnostics) : Completion Diagnostics :=
  text <- messageOrError (formatHttpError err) ;;
  ret (setFailure (formatHttpError err)
                  (pushError (lit "Generation test failed: " ++ text) d)).

(** The outcome of the second stage, read off the answer to its one
    request: the object it leaves, or what its handler throws. *)
Definition afterGeneration (answer : Completion JsVal) (d : Diagnostics)
  : Completion Diagnostics :=
  match answer with
  | Throw err => caught err d
  | Normal body =>
      match normalizeGeneratedText body with
      | Throw e => caught e d
      | Normal text =>
          if truthy text then
            match callSubstring text 100 with
            | Normal sample => ret (setTestResponse sample (setSuccess d))
            | Throw e => caught e (setSuccess d)
            end
          else
            match stringifyPrefix body 200 with
            | Normal raw =>
                ret (setRawResponse raw
                       (pushError (lit "API returned data but could not extract text") d))
            | Throw e =>
                caught e (pushError (lit "API returned data but could not extract text") d)
            end
      end
  end.

(** The value cannot be converted to a string. *)
Definition unrenderable (v : JsVal) : Prop := exists e, toStringOf v = Throw e.

(** The rejection of the chat request makes the handler of the second
    stage throw. *)
Definition breaksHandler (answer : Completion JsVal) : Prop :=
  exists err, answer = Throw err /\ unrenderable (interpolated (formatHttpError err)).

(** The topic is a string, or is left out. *)
Definition textTopic (topic : JsVal) : Prop := topic = JUndefined \/ isString topic.

Definition isHighSurrogate (c : N) : bool := ((55296 <=? c) && (c <=? 56319))%N.
Definition isLowSurrogate (c : N) : bool := ((56320 <=? c) && (c <=? 57343))%N.

(** The string is well-formed UTF-16 without a NUL: every unit is between
    1 and 65535 and every surrogate is half of a pair.  Such a text is
    stored as UTF-8 and read back without loss; a lone surrogate comes
    back as U+FFFD. *)
Fixpoint wellFormed (s : jsstring) : bool :=
  match s with
  | [] => true
  | c :: rest =>
      (0 <? c)%N && (c <? 65536)%N &&
      if isHighSurrogate c then
        match rest with
        | d :: rest' => isLowSurrogate d && wellFormed rest'
        | [] => false
        end
      else if isLowSurrogate c then false
      else wellFormed rest
  end.

(** The next id is below 2^53, so [this.lastID], a double, holds it
    exactly. *)
Definition exactIds (db : Db) : Prop :=
  (Z.max (sequence db) (maxId (rows db)) < 2 ^ 53 - 1)%Z.

(** router.get('/:id') after its await, on any completion of
    [getArticle]. *)
Definition getHandler (article : Completion (option Row)) : Completion Response :=
  tryCatch
    (found <- article ;;
     match found with
     | None =>
         ret {| code := 404;
                body := JsonBody (JObj [ (lit "error", JStr (lit "Not found")) ]) |}
     | Some a => ret {| code := 200; body := ArticleBody a |}
     end)
    (fun err => ret (errorJson 500 (lit "Failed to fetch article") err)).

(** router.post('/generate') after its await, on any completion of
    [createArticle]. *)
Definition generateHandler (created : Completion (option Row)) : Completion Response :=
  tryCatch
    (article <- created ;;
     ret {| code := 201;
            body := match article with
                    | Some a => ArticleBody a
                    | None => JsonBody JUndefined
                    end |})
    (fun err => ret (errorJson 500 (lit "Failed to generate article") err)).

(** app.get('/health') after its await, on any completion of the probe. *)
Definition healthHandler (probed : Completion unit) (timestamp : jsstring)
  : Completion Response :=
  tryCatch
    (_ <- probed ;;
     ret {| code := 200;
            body := JsonBody (JObj [ (lit "ok", JBool true);
                                     (lit "db", JStr (lit "connected"));
                                     (lit "timestamp", JStr timestamp) ]) |})
    (fun err =>
       ret {| code := 503;
              body := JsonBody (JObj [ (lit "ok", JBool false);
                                       (lit "db", JStr (lit "disconnected"));
                                       (lit "error", JStr (err_message err)) ]) |}).

(** The responses a route handler of the source can send, whatever the
    call it awaits resolves or rejects with.  The answers the framework
    gives on its own (a body that does not parse, a path without route)
    are not among them. *)
Inductive sent : Response -> Prop :=
| sent_list articles r :
    listRoute articles = Normal r -> sent r
| sent_get article r :
    getHandler article = Normal r -> sent r
| sent_generate created r :
    generateHandler created = Normal r -> sent r
| sent_diagnostics diagnostics r :
    diagnosticsRoute diagnostics = Normal r -> sent r
| sent_health probed timestamp r :
    healthHandler probed timestamp = Normal r -> sent r.

(** The body of the health route's 503. *)
Definition disconnectedBody (err : JsError) : Body :=
  JsonBody (JObj [ (lit "ok", JBool false);
                   (lit "db", JStr (lit "disconnected"));
                   (lit "error", JStr (err_message err)) ]).

(** A body whose topic is the empty array. *)
Definition emptyArrayBody : JsVal := JObj [ (lit "topic", JArr []) ].

(** An error body whose message is an object with a toString key. *)
Definition unrenderableError : JsError :=
  {| err_name := lit "AxiosError"; err_code := Some (lit "ERR_BAD_REQUEST");
     err_message := lit "Request failed with status code 400";
     err_response :=
       Some {| status := 400;
               data := JObj [ (lit "error",
                               JObj [ (lit "message",
                                       JObj [ (lit "toString", JBool true) ]) ]) ] |} |}.

(** The diagnostics route, fed by [testOpenRouterConnection]; [toJson] is
    the serialisation [res.json] applies to the object. *)
Definition diagnosticsResponse (toJson : Diagnostics -> JsVal) (env : Env) (net : Network)
  : Completion Response :=
  diagnosticsRoute (d <- fst (testOpenRouterConnection env net) ;; ret (toJson d)).

(** A listing whose entries are a free model, a paid one and an entry
    without id. *)
Definition listing : JsVal :=
  JObj [ (lit "data",
          JArr [ JObj [ (lit "id", JStr (lit "meta-llama/llama-3.2-3b-instruct:free")) ];
                 JObj [ (lit "id", JStr (lit "openai/gpt-4o")) ];
                 JObj [ (lit "name", JStr (lit "unnamed")) ] ]) ].

(** A listing whose data is not an array. *)
Definition malformedListing : JsVal :=
  JObj [ (lit "data", JObj [ (lit "models", JArr []) ]) ].

Definition answering (text : JsVal) : Network :=
  {| getModels := fun _ => Normal listing;
     postChat := fun _ _ _ =>
       Normal (JObj [ (lit "choices",
                       JArr [ JObj [ (lit "message",
                                      JObj [ (lit "content", text) ]) ] ]) ]) |}.

(** A service whose listing answers and whose chat request is rejected. *)
Definition refusing (err : JsError) : Network :=
  {| getModels := fun _ => Normal listing;
     postChat := fun _ _ _ => Throw err |}.

(** A service whose models listing cannot be read and whose chat answers. *)
Definition unreadableListing : Network :=
  {| getModels := fun _ => Normal malformedListing;
     postChat := fun _ _ _ => Normal (chatBody (lit "Title")) |}.


Definition paddedModel : Env :=
  {| OPENROUTER_API_KEY := Some (lit "sk-or-test");
     AI_MODEL := Some (lit "  openai/gpt-4o  ") |}.

Definition oneRow : Db :=
  {| rows := [ {| id := 7; row_title := lit "First"; row_content := lit "Body";
                  created_at := lit "2024-12-31 23:59:59" |} ];
     sequence := 9; now := lit "2025-01-01 00:00:00"; fault := None;
     integerOfText := fun s => if Str.eqb s (lit "7") then Some 7%Z else None |}.

End Properties.

(* ================================================================== *)
(** ** Facts about strings *)
(* ================================================================== *)

Module StrFacts.

Lemma eqb_refl (a : jsstring) : Str.eqb a a = true.
Proof.
  induction a as [|x a IH]; simpl; [reflexivity|].
  now rewrite N.eqb_refl, IH.
Qed.

Lemma eqb_eq (a b : jsstring) : Str.eqb a b = true <-> a = b.
Proof.
  split.
  - revert b; induction a as [|x a IH]; intros [|y b] H; simpl in H;
      try discriminate; [reflexivity|].
    apply andb_true_iff in H as [Hx Hab].
    apply N.eqb_eq in Hx. apply IH in Hab. now subst.
  - intros ->. apply eqb_refl.
Qed.

Lemma eqb_neq (a b : jsstring) : Str.eqb a b = false <-> a <> b.
Proof.
  rewrite <- eqb_eq. destruct (Str.eqb a b); split; congruence.
Qed.

Lemma eqb_sym (a b : jsstring) : Str.eqb a b = Str.eqb b a.
Proof.
  destruct (Str.eqb a b) eqn:E.
  - apply eqb_eq in E. subst. symmetry. apply eqb_refl.
  - symmetry. apply eqb_neq. apply eqb_neq in E. congruence.
Qed.

Lemma existsb_eqb_In (x : jsstring) (l : list jsstring) :
  existsb (Str.eqb x) l = true <-> In x l.
Proof.
  rewrite existsb_exists. split.
  - intros (y & Hy & E). apply eqb_eq in E. now subst.
  - intros H. exists x. split; [assumption | apply eqb_refl].
Qed.

Lemma startsWith_app (t rest : jsstring) : startsWith t (t ++ rest) = true.
Proof.
  induction t as [|c t IH]; simpl; [reflexivity|].
  now rewrite N.eqb_refl, IH.
Qed.

Lemma includes_unfold (t hay : jsstring) :
  includes t hay =
  startsWith t hay || match hay with [] => false | _ :: h' => includes t h' end.
Proof. destruct hay; reflexivity. Qed.

Lemma includes_infix (before t after : jsstring) :
  includes t (before ++ t ++ after) = true.
Proof.
  induction before as [|c before IH].
  - rewrite includes_unfold. simpl app. now rewrite startsWith_app.
  - rewrite includes_unfold. cbn [app]. cbv iota. rewrite IH. apply orb_true_r.
Qed.

End StrFacts.

(* ================================================================== *)
(** ** Fallback generation *)
(* ================================================================== *)

Module FallbackFacts.
Import AiClient Spec Scenario StrFacts.

(** C2, as stated, fails: for the topic DAOs the second paragraph of the
    fallback content does not contain the topic, so the topic is not
    interpolated into each of the three paragraphs. *)
Lemma fallback_second_paragraph_lacks_topic :
  ~ interpolatedInEach daos.
Proof.
  unfold interpolatedInEach. intros H.
  inversion H as [|p1 rest1 _ H1]; subst.
  inversion H1 as [|p2 rest2 Hp2 _]; subst.
  vm_compute in Hp2. discriminate Hp2.
Qed.

(** C2, amended: for every topic string t the fallback is the title
    Fallback article on t and a content of exactly three paragraphs
    separated by blank lines; the first and the third paragraph
    interpolate t, the second is a fixed sentence that does not depend on
    the topic. *)
Theorem generateFallback_template (t : jsstring) :
  title (generateFallback (JStr t)) = lit "Fallback article on " ++ t
  /\ exists p1 p3,
       fallbackParagraphs t = [p1; fixedParagraph; p3]
       /\ content (generateFallback (JStr t))
          = p1 ++ [LF; LF] ++ fixedParagraph ++ [LF; LF] ++ p3
       /\ includes t p1 = true
       /\ includes t p3 = true.
Proof.
  split; [reflexivity|].
  eexists. eexists. split; [reflexivity|].
  split; [reflexivity|].
  split; apply includes_infix.
Qed.

End FallbackFacts.

(* ================================================================== *)
(** ** The candidate model list *)
(* ================================================================== *)

Module CandidateFacts.
Import AiClient Spec StrFacts.

(** [fold_left setAdd] appends to what was seen exactly the elements
    that [keepFirstFrom] keeps. *)
Lemma fold_setAdd_keepFirstFrom (xs seen seen' : list jsstring) :
  (forall x, In x seen <-> In x seen') ->
  fold_left setAdd xs seen = seen ++ keepFirstFrom seen' xs.
Proof.
  revert seen seen'.
  induction xs as [|x xs IH]; intros seen seen' Hsame; simpl.
  - now rewrite app_nil_r.
  - unfold setAdd at 2.
    assert (Hmem : existsb (Str.eqb x) seen = existsb (Str.eqb x) seen').
    { destruct (existsb (Str.eqb x) seen) eqn:E1, (existsb (Str.eqb x) seen') eqn:E2;
        try reflexivity.
      - apply existsb_eqb_In, Hsame, existsb_eqb_In in E1. congruence.
      - apply existsb_eqb_In, Hsame, existsb_eqb_In in E2. congruence. }
    rewrite <- Hmem.
    destruct (existsb (Str.eqb x) seen).
    + now apply IH.
    + rewrite (IH (seen ++ [x]) (x :: seen')).
      * now rewrite <- app_assoc.
      * intros y. rewrite in_app_iff. simpl. rewrite Hsame. tauto.
Qed.

Lemma newSet_keepFirst (xs : list jsstring) : newSet xs = keepFirst xs.
Proof.
  unfold newSet, keepFirst.
  now rewrite (fold_setAdd_keepFirstFrom xs [] []).
Qed.

Lemma keepFirstFrom_NoDup_id (xs seen : list jsstring) :
  NoDup xs -> (forall x, In x xs -> ~ In x seen) -> keepFirstFrom seen xs = xs.
Proof.
  revert seen.
  induction xs as [|x xs IH]; intros seen Hnd Hfresh; simpl; [reflexivity|].
  inversion Hnd as [|? ? Hx Hxs]; subst.
  destruct (existsb (Str.eqb x) seen) eqn:E.
  - apply existsb_eqb_In in E. exfalso. apply (Hfresh x); simpl; auto.
  - f_equal. apply IH; [assumption|].
    intros y Hy [Hyx | Hys].
    + subst. contradiction.
    + apply (Hfresh y); simpl; auto.
Qed.

Lemma filter_neq_id (m : jsstring) (xs : list jsstring) :
  ~ In m xs -> filter (fun a => negb (Str.eqb a m)) xs = xs.
Proof.
  induction xs as [|x xs IH]; intros Hm; simpl; [reflexivity|].
  destruct (Str.eqb x m) eqn:E; simpl.
  - apply eqb_eq in E. subst. exfalso. apply Hm. now left.
  - f_equal. apply IH. intros H. apply Hm. now right.
Qed.

Lemma filter_neq_In (m a : jsstring) (xs : list jsstring) :
  In a (filter (fun y => negb (Str.eqb y m)) xs) <-> In a xs /\ a <> m.
Proof.
  rewrite filter_In, negb_true_iff, eqb_neq. tauto.
Qed.

Ltac distinct_literals :=
  repeat (constructor;
          [ simpl; intros H;
            repeat (destruct H as [H | H]; [ vm_compute in H; discriminate H | ]);
            exact H
          | ]);
  constructor.

Lemma alternativeFreeModels_NoDup : NoDup alternativeFreeModels.
Proof. unfold alternativeFreeModels. distinct_literals. Qed.

Lemma modelsToTry_closed (m : jsstring) :
  modelsToTry m = m :: filter (fun a => negb (Str.eqb a m)) alternativeFreeModels.
Proof.
  unfold modelsToTry.
  destruct (existsb (Str.eqb m) alternativeFreeModels) eqn:E; simpl negb; cbv iota.
  - reflexivity.
  - simpl app. f_equal. symmetry. apply filter_neq_id.
    intros H. apply existsb_eqb_In in H. congruence.
Qed.

(** C4: for every configured model m the list of models tried is m
    followed by every alternative free-tier model other than m, duplicates
    removed in first-seen order; it starts with m, has no duplicates and
    contains every alternative model. *)
Theorem uniqueModels_candidates (m : jsstring) :
  uniqueModels m = candidates m
  /\ uniqueModels m = m :: filter (fun a => negb (Str.eqb a m)) alternativeFreeModels
  /\ hd_error (uniqueModels m) = Some m
  /\ NoDup (uniqueModels m)
  /\ (forall a, In a alternativeFreeModels -> In a (uniqueModels m))
  /\ (forall a, In a (uniqueModels m) -> a = m \/ In a alternativeFreeModels).
Proof.
  assert (Hspec : uniqueModels m = candidates m).
  { unfold uniqueModels, candidates.
    now rewrite newSet_keepFirst, modelsToTry_closed. }
  assert (Hnd : NoDup (m :: filter (fun a => negb (Str.eqb a m)) alternativeFreeModels)).
  { constructor.
    - rewrite filter_neq_In. tauto.
    - apply NoDup_filter, alternativeFreeModels_NoDup. }
  assert (Hclosed : uniqueModels m
                    = m :: filter (fun a => negb (Str.eqb a m)) alternativeFreeModels).
  { rewrite Hspec. unfold candidates, keepFirst.
    apply keepFirstFrom_NoDup_id; [assumption | intros x _ []]. }
  repeat split; try assumption.
  - now rewrite Hclosed.
  - now rewrite Hclosed.
  - intros a Ha. rewrite Hclosed.
    destruct (Str.eqb a m) eqn:E.
    + apply eqb_eq in E. subst. now left.
    + right. apply filter_neq_In. split; [assumption | now apply eqb_neq].
  - intros a. rewrite Hclosed. intros [Ha | Ha]; [now left | right].
    now apply filter_neq_In in Ha.
Qed.

End CandidateFacts.

(* ================================================================== *)
(** ** The retry loop over candidate models *)
(* ================================================================== *)

Module RetryFacts.
Import AiClient Spec Scenario StrFacts.

Section Loop.

Variable net : Network.
Variables token prompt : jsstring.

Let payload (m : jsstring) : Payload := buildOpenRouterPayload prompt m.


Lemma normalize_throws_typeError (d : JsVal) (e : JsError) :
  normalizeGeneratedText d = Throw e -> exists msg, e = typeError msg.
Proof.
  unfold normalizeGeneratedText.
  destruct (negb (truthy d)); [discriminate|].
  destruct (truthy (prop d (lit "choices")) && isArray (prop d (lit "choices"))
            && (0 <? arrayLength (prop d (lit "choices")))).
  - unfold get.
    destruct (nullish (item0 (prop d (lit "choices")))); simpl.
    + intros [= <-]. eauto.
    + destruct (truthy _ && truthy _); [discriminate|].
      destruct (truthy _); [discriminate|].
      destruct d; try discriminate;
        repeat (destruct (truthy _); try discriminate).
  - destruct d; try discriminate;
      repeat (destruct (truthy _); try discriminate).
Qed.













End Loop.







End RetryFacts.

(* ================================================================== *)
(** ** Response-text normalisation *)
(* ================================================================== *)

Module NormalizeFacts.
Import AiClient Spec Scenario.

(** On any response whose first choice is present, normalisation returns
    the first truthy one of: chat message content, legacy completion text,
    the body itself when it is a string, the content field, the text field;
    and null when there is none. *)
Lemma normalize_priority_order (response : JsVal) :
  firstChoiceMissing response = false ->
  normalizeGeneratedText response = Normal (extractedText response).
Proof.
  unfold firstChoiceMissing, normalizeGeneratedText, extractedText, textSources,
    firstChoice, optGet, get.
  destruct response as [ | | [|] | [[|] ?] | [|? ?] | items | fields ];
    try reflexivity.
  cbn [truthy negb nullish prop].
  generalize (lookup (lit "content") fields) (lookup (lit "text") fields).
  intros gcontent gtext.
  destruct (lookup (lit "choices") fields) as [ | | [|] | [[|] ?] | [|? ?] | [|choice ?] | ? ];
    cbn [truthy isArray arrayLength item0 andb length Nat.ltb Nat.leb nullish prop find];
    try (intros _; destruct (truthy gcontent); [reflexivity|];
         destruct (truthy gtext); reflexivity).
  intros Hchoice. rewrite Hchoice. cbn [bind].
  destruct choice as [ | | [|] | [[|] ?] | [|? ?] | ? | cfields ];
    try discriminate Hchoice;
    cbn [truthy andb prop nullish find];
    try (destruct (truthy gcontent); [reflexivity|];
         destruct (truthy gtext); reflexivity).
  generalize (lookup (lit "text") cfields). intros ctext.
  destruct (lookup (lit "message") cfields) as [ | | [|] | [[|] ?] | [|? ?] | ? | mfields ];
    cbn [truthy andb prop nullish find];
    try (destruct (truthy ctext); [reflexivity|];
         destruct (truthy gcontent); [reflexivity|];
         destruct (truthy gtext); reflexivity).
  destruct (truthy (lookup (lit "content") mfields)); [reflexivity|].
  destruct (truthy ctext); [reflexivity|].
  destruct (truthy gcontent); [reflexivity|].
  destruct (truthy gtext); reflexivity.
Qed.

(** On a truthy response whose first choice is null the function throws a
    TypeError instead of looking further. *)
Lemma normalize_missing_choice_throws (response : JsVal) :
  firstChoiceMissing response = true ->
  exists msg, normalizeGeneratedText response = Throw (typeError msg).
Proof.
  unfold firstChoiceMissing, normalizeGeneratedText, optGet, get.
  destruct response as [ | | [|] | [[|] ?] | [|? ?] | items | fields ];
    try discriminate.
  cbn [truthy negb nullish prop].
  destruct (lookup (lit "choices") fields) as [ | | | | | [|choice ?] | ? ];
    try discriminate.
  cbn [truthy isArray arrayLength item0 andb length Nat.ltb Nat.leb].
  intros ->. cbn [bind]. eauto.
Qed.

(** C6 fails on the code at a body whose choices array holds null: the
    generic content field applies and would give the text hi, but reading
    the message of the null choice throws before any other place is
    looked at. *)
Theorem normalize_null_choice_diverges :
  extractedText nullChoice = JStr (lit "hi")
  /\ exists msg, normalizeGeneratedText nullChoice = Throw (typeError msg).
Proof.
  split; [reflexivity|].
  eexists. reflexivity.
Qed.

End NormalizeFacts.

(* ================================================================== *)
(** ** Parsing generated text into title and content *)
(* ================================================================== *)

Module ParseFacts.
Import AiClient Spec Scenario StrFacts.

Lemma split_cons (sep : N) (s : jsstring) :
  split sep s = hd [] (split sep s) :: tl (split sep s).
Proof.
  destruct s as [|c s]; simpl; [reflexivity|].
  destruct (c =? sep)%N; [reflexivity|].
  now destruct (split sep s).
Qed.

(** The array [split] builds holds the lines of the text. *)
Lemma linesFrom_split (s current : jsstring) :
  linesFrom current s = (current ++ hd [] (split LF s)) :: tl (split LF s).
Proof.
  revert current.
  induction s as [|c s IH]; intros current; simpl.
  - now rewrite app_nil_r.
  - destruct (c =? LF)%N.
    + simpl. rewrite app_nil_r, IH. simpl. now rewrite <- split_cons.
    + rewrite IH. rewrite (split_cons LF s). simpl.
      now rewrite <- app_assoc.
Qed.

Lemma split_lines (s : jsstring) : split LF s = linesFrom [] s.
Proof. rewrite linesFrom_split. simpl. apply split_cons. Qed.

Lemma linesFrom_cons (s current : jsstring) :
  exists l ls, linesFrom current s = l :: ls.
Proof. rewrite linesFrom_split. eauto. Qed.

(** Joining the lines with line feeds gives the text back. *)
Lemma join_linesFrom (s current : jsstring) :
  join [LF] (linesFrom current s) = current ++ s.
Proof.
  revert current.
  induction s as [|c s IH]; intros current; simpl.
  - now rewrite app_nil_r.
  - destruct (c =? LF)%N eqn:E.
    + apply N.eqb_eq in E. subst c.
      destruct (linesFrom_cons s []) as (l & ls & Hl).
      specialize (IH []). rewrite Hl in IH |- *.
      change (join [LF] (current :: l :: ls))
        with (current ++ [LF] ++ join [LF] (l :: ls)).
      rewrite IH. reflexivity.
    + rewrite IH. now rewrite <- app_assoc.
Qed.

(** No line holds a line feed. *)
Lemma linesFrom_no_LF (s current l : jsstring) :
  ~ In LF current -> In l (linesFrom current s) -> ~ In LF l.
Proof.
  revert current.
  induction s as [|c s IH]; intros current Hcur; simpl.
  - intros [<- | []]. exact Hcur.
  - destruct (c =? LF)%N eqn:E.
    + intros [<- | Hl]; [exact Hcur|].
      apply (IH []); [intros [] | exact Hl].
    + apply IH. rewrite in_app_iff. intros [H | [H | []]]; [auto|].
      subst c. now rewrite N.eqb_refl in E.
Qed.

Lemma trimStart_idempotent (s : jsstring) : trimStart (trimStart s) = trimStart s.
Proof.
  induction s as [|c s IH]; simpl; [reflexivity|].
  destruct (isWhiteSpace c) eqn:E; [exact IH|].
  simpl. now rewrite E.
Qed.

Lemma trim_trimStart (s : jsstring) : trim (trimStart s) = trim s.
Proof. unfold trim. now rewrite trimStart_idempotent. Qed.

(** After the final [trim], replacing the heading pattern amounts to
    dropping the leading number signs. *)
Lemma trim_stripHeading (line : jsstring) : trim (stripHeading line) = stripMarkers line.
Proof.
  unfold stripMarkers.
  destruct line as [|c line]; [reflexivity|].
  unfold stripHeading.
  destruct (c =? HASH)%N eqn:E.
  - apply trim_trimStart.
  - simpl. now rewrite E.
Qed.

Lemma nonEmpty_filter (ls : list jsstring) :
  filter (fun l => truthy (JStr l)) ls = filter (fun l => negb (Str.eqb l [])) ls.
Proof.
  apply filter_ext. intros [|c l]; reflexivity.
Qed.

Lemma parseGenerated_title (topic raw : jsstring) :
  title (parseGenerated (JStr topic) raw) = parsedTitle topic raw.
Proof.
  unfold parseGenerated, parsedTitle, nonEmptyLines. cbn [title toStr].
  rewrite nonEmpty_filter, split_lines.
  destruct (filter _ (linesFrom [] (trim raw))) as [|first rest].
  - reflexivity.
  - rewrite trim_stripHeading.
    now destruct (stripMarkers first).
Qed.

Lemma parseGenerated_content (topic : JsVal) (raw : jsstring) :
  content (parseGenerated topic raw) = parsedContent raw.
Proof.
  unfold parseGenerated, parsedContent, nonEmptyLines. cbn [content].
  rewrite nonEmpty_filter, split_lines.
  destruct (filter _ (linesFrom [] (trim raw))) as [|first [|second rest]];
    reflexivity.
Qed.

Lemma parsedTitle_length (topic raw : jsstring) :
  length (parsedTitle topic raw) <= 140
  \/ parsedTitle topic raw = lit "New article on " ++ topic.
Proof.
  unfold parsedTitle.
  destruct (nonEmptyLines (trim raw)) as [|first rest]; [now right|].
  destruct (stripMarkers first) as [|c stripped]; [now right|].
  left. apply firstn_le_length.
Qed.

(** C5: for every generated text, the title is the first non-empty line
    with its leading heading markers stripped, cut to 140 characters, or
    the synthesized title New article on topic when nothing is left of that
    line; the content is the remaining non-empty lines joined and trimmed,
    or the whole trimmed text when no line remains after the title line.
    The text made of the lines # Hello and World gives title Hello and
    content World. *)
Theorem parseGenerated_meets_spec (topic raw : jsstring) :
  parseGenerated (JStr topic) raw
  = {| title := parsedTitle topic raw; content := parsedContent raw |}
  /\ (length (title (parseGenerated (JStr topic) raw)) <= 140
      \/ title (parseGenerated (JStr topic) raw) = lit "New article on " ++ topic)
  /\ parseGenerated (JStr topic) helloWorld
     = {| title := lit "Hello"; content := lit "World" |}.
Proof.
  split; [|split].
  - rewrite <- (parseGenerated_title topic raw).
    rewrite <- (parseGenerated_content (JStr topic) raw).
    now destruct (parseGenerated (JStr topic) raw).
  - rewrite parseGenerated_title. apply parsedTitle_length.
  - reflexivity.
Qed.

End ParseFacts.

(* ================================================================== *)
(** ** generateArticle *)
(* ================================================================== *)

Module GenerateFacts.
Import AiClient Spec Scenario StrFacts ParseFacts.

(** *** White space and trimming *)

Lemma hasInk_app (a b : jsstring) : hasInk (a ++ b) = hasInk a || hasInk b.
Proof. apply existsb_app. Qed.

Lemma hasInk_rev (s : jsstring) : hasInk (rev s) = hasInk s.
Proof.
  induction s as [|c s IH]; [reflexivity|].
  simpl rev. rewrite hasInk_app, IH. simpl.
  rewrite orb_false_r. apply orb_comm.
Qed.

Lemma hasInk_trimStart (s : jsstring) : hasInk (trimStart s) = hasInk s.
Proof.
  induction s as [|c s IH]; [reflexivity|].
  simpl. destruct (isWhiteSpace c) eqn:E; simpl; [exact IH|].
  now rewrite E.
Qed.

Lemma trimStart_head (s : jsstring) :
  hasInk s = true ->
  exists c rest, trimStart s = c :: rest /\ isWhiteSpace c = false.
Proof.
  induction s as [|c s IH]; [discriminate|].
  simpl. destruct (isWhiteSpace c) eqn:E; simpl.
  - exact IH.
  - intros _. eauto.
Qed.

Lemma hasInk_trim (s : jsstring) : hasInk (trim s) = hasInk s.
Proof.
  unfold trim, trimEnd.
  now rewrite hasInk_rev, hasInk_trimStart, hasInk_rev, hasInk_trimStart.
Qed.

Lemma hasInk_nonempty (s : jsstring) : hasInk s = true -> s <> [].
Proof. now destruct s. Qed.

(** A trimmed text with something in it ends with a unit that is not white
    space. *)
Lemma trim_last (s : jsstring) :
  hasInk s = true ->
  exists front c, trim s = front ++ [c] /\ isWhiteSpace c = false.
Proof.
  intros Hink. unfold trim, trimEnd.
  destruct (trimStart_head (rev (trimStart s))) as (c & rest & Hrest & Hc).
  - now rewrite hasInk_rev, hasInk_trimStart.
  - rewrite Hrest. simpl. eauto.
Qed.

(** Appending a unit that is not a line feed extends the last line. *)
Lemma linesFrom_snoc (s current : jsstring) (c : N) :
  (c =? LF)%N = false ->
  exists front lastLine,
    linesFrom current s = front ++ [lastLine]
    /\ linesFrom current (s ++ [c]) = front ++ [lastLine ++ [c]].
Proof.
  intros Hc. revert current.
  induction s as [|d s IH]; intros current; simpl.
  - rewrite Hc. exists [], current. split; reflexivity.
  - destruct (d =? LF)%N.
    + destruct (IH []) as (front & lastLine & H1 & H2).
      exists (current :: front), lastLine. rewrite H1, H2. split; reflexivity.
    + apply IH.
Qed.

Lemma isWhiteSpace_LF (c : N) : isWhiteSpace c = false -> (c =? LF)%N = false.
Proof.
  intros H. destruct (c =? LF)%N eqn:E; [|reflexivity].
  apply N.eqb_eq in E. subst c. discriminate H.
Qed.

Lemma hasInk_join (sep : jsstring) (parts : list jsstring) (x : jsstring) :
  In x parts -> hasInk x = true -> hasInk (join sep parts) = true.
Proof.
  induction parts as [|p parts IH]; intros Hin Hx; [contradiction|].
  destruct parts as [|q parts].
  - destruct Hin as [-> | []]. exact Hx.
  - change (join sep (p :: q :: parts)) with (p ++ sep ++ join sep (q :: parts)).
    rewrite !hasInk_app.
    destruct Hin as [-> | Hin].
    + now rewrite Hx.
    + rewrite (IH Hin Hx). now rewrite !orb_true_r.
Qed.

(** The content parsed from a text that is not all white space is not
    empty. *)
Lemma parsedContent_nonempty (raw : jsstring) :
  hasInk raw = true -> parsedContent raw <> [].
Proof.
  intros Hink.
  assert (Htrim : trim raw <> [])
    by (apply hasInk_nonempty; now rewrite hasInk_trim).
  destruct (trim_last raw Hink) as (front & c & Hfront & Hc).
  destruct (linesFrom_snoc front [] c (isWhiteSpace_LF c Hc))
    as (before & lastLine & _ & Hlines).
  unfold parsedContent, nonEmptyLines.
  rewrite Hfront, Hlines, filter_app. rewrite <- Hfront.
  assert (Hlast : filter (fun l => negb (Str.eqb l [])) [lastLine ++ [c]]
                  = [lastLine ++ [c]]).
  { simpl. now destruct lastLine. }
  rewrite Hlast.
  destruct (filter _ before) as [|first rest]; [exact Htrim|].
  simpl app.
  destruct (rest ++ [lastLine ++ [c]]) as [|second rest'] eqn:Erest.
  - now destruct rest.
  - apply hasInk_nonempty. rewrite hasInk_trim.
    apply hasInk_join with (x := lastLine ++ [c]).
    + rewrite <- Erest, in_app_iff. right. now left.
    + rewrite hasInk_app. simpl. rewrite Hc. simpl. apply orb_true_r.
Qed.

(** *** The two outcomes of generateArticle *)

Lemma generateArticle_cases (env : Env) (net : Network) (topic : JsVal) :
  match generatedText env net topic with
  | Some s => fst (generateArticle env net topic) = Normal (parseGenerated topic s)
  | None => fst (generateArticle env net topic) = Normal (generateFallback topic)
  end.
Proof.
  unfold generatedText, generateArticle.
  destruct (generateViaOpenRouter env net (promptFor topic)) as [llm calls].
  cbn [fst].
  destruct llm as [ | | [|] | [[|] ?] | [|? ?] | ? | ? ]; reflexivity.
Qed.

Lemma no_credential_no_text (env : Env) (net : Network) (topic : JsVal) :
  OPENROUTER_API_KEY env = None -> generatedText env net topic = None.
Proof.
  intros H. unfold generatedText, generateViaOpenRouter. now rewrite H.
Qed.

Lemma fallback_title_length (t : jsstring) :
  length (title (generateFallback (JStr t))) = 20 + length t.
Proof. cbn [generateFallback title toStr]. now rewrite length_app. Qed.

Lemma fallback_content_nonempty (topic : JsVal) :
  content (generateFallback topic) <> [].
Proof. discriminate. Qed.

Lemma parsed_title_nonempty (topic raw : jsstring) : parsedTitle topic raw <> [].
Proof.
  unfold parsedTitle.
  destruct (nonEmptyLines (trim raw)) as [|first rest]; [discriminate|].
  destruct (stripMarkers first) as [|c stripped]; discriminate.
Qed.

(** C1, as stated, fails: with no credential configured and a topic of 121
    characters, the article returned is the fallback, whose title has 141
    characters. *)
Lemma long_topic_title_exceeds_140 :
  exists r,
    fst (generateArticle noCredential offline (JStr longTopic)) = Normal r
    /\ ~ usable r.
Proof.
  eexists. split; [reflexivity|].
  unfold usable. intros (_ & Hlen & _).
  vm_compute in Hlen. lia.
Qed.

(** When the service answers with white space only, the parsed content is
    the empty string. *)
Lemma blank_answer_empty_content :
  exists r,
    fst (generateArticle withCredential blankAnswers (JStr daos)) = Normal r
    /\ content r = [].
Proof. eexists. split; reflexivity. Qed.

(** C1, amended: for every topic string t, generateArticle never raises;
    it returns a pair whose title is not empty, and has at most 140
    characters whenever t has at most 120.  When no text is obtained (in
    particular with no credential configured) the pair is the fallback: title
    Fallback article on t, of 20 + |t| characters, and non-empty content.
    When a text is obtained, the pair is parsed from it, and its content is
    not empty provided the text is not all white space. *)
Theorem generateArticle_total (env : Env) (net : Network) (t : jsstring) :
  exists r,
    fst (generateArticle env net (JStr t)) = Normal r
    /\ title r <> []
    /\ (length t <= 120 -> length (title r) <= 140)
    /\ (generatedText env net (JStr t) = None ->
        r = generateFallback (JStr t)
        /\ title r = lit "Fallback article on " ++ t
        /\ length (title r) = 20 + length t
        /\ content r <> [])
    /\ (OPENROUTER_API_KEY env = None -> generatedText env net (JStr t) = None)
    /\ (forall s, generatedText env net (JStr t) = Some s ->
                  r = parseGenerated (JStr t) s
                  /\ (hasInk s = true -> content r <> [])).
Proof.
  pose proof (generateArticle_cases env net (JStr t)) as Hcases.
  destruct (generatedText env net (JStr t)) as [s|] eqn:Htext.
  - exists (parseGenerated (JStr t) s).
    split; [exact Hcases|]. split; [|split; [|split; [|split]]].
    + rewrite parseGenerated_title. apply parsed_title_nonempty.
    + intros Ht. rewrite parseGenerated_title.
      destruct (parsedTitle_length t s) as [H | H]; [exact H|].
      rewrite H, length_app. change (length (lit "New article on ")) with 15. lia.
    + discriminate.
    + intros Hkey. rewrite <- Htext. now apply no_credential_no_text.
    + intros s' [= <-]. split; [reflexivity|].
      intros Hink. rewrite parseGenerated_content.
      now apply parsedContent_nonempty.
  - exists (generateFallback (JStr t)).
    split; [exact Hcases|]. split; [|split; [|split; [|split]]].
    + discriminate.
    + intros Ht. rewrite fallback_title_length. lia.
    + intros _. split; [reflexivity|]. split; [reflexivity|].
      split; [apply fallback_title_length | apply fallback_content_nonempty].
    + reflexivity.
    + discriminate.
Qed.

(** The scenario of the specification: with no credential configured, the
    topic DAOs gives the title Fallback article on DAOs, and a non-empty
    content. *)
Lemma generateArticle_total_no_credential :
  exists r,
    fst (generateArticle noCredential offline (JStr daos)) = Normal r
    /\ title r = lit "Fallback article on DAOs"
    /\ length (title r) <= 140
    /\ content r <> [].
Proof.
  destruct (generateArticle_total noCredential offline daos)
    as (r & Hr & _ & Hshort & Hfallback & Hkey & _).
  destruct (Hfallback (Hkey eq_refl)) as (_ & Htitle & _ & Hcontent).
  exists r. split; [exact Hr|]. split; [exact Htitle|].
  split; [|exact Hcontent].
  apply Hshort. vm_compute. lia.
Defined.

End GenerateFacts.

(* ================================================================== *)
(** ** Seeding *)
(* ================================================================== *)

Module SeedFacts.
Import Store AiClient ArticleService Spec Scenario.

Lemma countAll_zero (db : Db) :
  countAll db = Normal 0%Z <-> fault db = None /\ rows db = [].
Proof.
  unfold countAll, run.
  destruct (fault db); [split; [discriminate | intros [[=] _]]|].
  split.
  - intros [= H]. split; [reflexivity|].
    destruct (rows db); [reflexivity | discriminate H].
  - intros [_ ->]. reflexivity.
Qed.

Lemma insertAll_cons (db : Db) (a : Sample) (l : list Sample) :
  insertAll db (a :: l)
  = insertAll (snd (insert db (sample_title a) (sample_content a))) l.
Proof. reflexivity. Qed.

Lemma insert_reachable (db : Db) (t c : jsstring) :
  fault db = None ->
  exists row seq,
    snd (insert db t c) = withRows db (rows db ++ [row]) seq
    /\ titleAndContent row = (t, c).
Proof.
  intros Hfault. unfold insert. rewrite Hfault. cbn [snd]. eauto.
Qed.

(** With a reachable store, [insertAll] appends one row per sample, in
    order, with the sample's title and content. *)
Lemma insertAll_rows (l : list Sample) (db : Db) :
  fault db = None ->
  exists new,
    rows (insertAll db l) = rows db ++ new
    /\ map titleAndContent new = map sampleText l
    /\ fault (insertAll db l) = None.
Proof.
  revert db.
  induction l as [|a l IH]; intros db Hfault.
  - exists []. simpl. now rewrite app_nil_r.
  - rewrite insertAll_cons.
    destruct (insert_reachable db (sample_title a) (sample_content a) Hfault)
      as (row & seq & Hinsert & Hrow).
    rewrite Hinsert.
    destruct (IH (withRows db (rows db ++ [row]) seq) Hfault)
      as (new & Hrows & Htexts & Hf).
    exists (row :: new). rewrite Hrows. cbn [rows withRows].
    rewrite <- app_assoc. split; [reflexivity|].
    split; [|exact Hf].
    cbn [map]. rewrite Hrow, Htexts. reflexivity.
Qed.

Lemma seedIfEmpty_nonempty (db : Db) : rows db <> [] -> seedIfEmpty db = db.
Proof.
  intros Hrows. unfold seedIfEmpty, countAll, run.
  destruct (fault db); [reflexivity|].
  destruct (rows db) as [|r rs]; [contradiction | reflexivity].
Qed.

Lemma seedIfEmpty_not_zero (db : Db) : countAll db <> Normal 0%Z -> seedIfEmpty db = db.
Proof.
  intros Hcount. unfold seedIfEmpty.
  destruct (countAll db) as [count|e]; [|reflexivity].
  destruct (count =? 0)%Z eqn:E; [|reflexivity].
  apply Z.eqb_eq in E. subst. contradiction.
Qed.

(** C9: seeding inserts the three fixed sample articles, and nothing else,
    exactly when the count query answers zero; otherwise the store is left
    as it is.  In particular it leaves a non-empty store untouched, and
    running it a second time changes nothing. *)
Theorem seedIfEmpty_policy (db : Db) :
  length samples = 3
  /\ (countAll db = Normal 0%Z ->
      map titleAndContent (rows (seedIfEmpty db)) = map sampleText samples)
  /\ (countAll db <> Normal 0%Z -> seedIfEmpty db = db)
  /\ (length (rows (seedIfEmpty db)) = length (rows db) + 3
      <-> countAll db = Normal 0%Z)
  /\ (rows db <> [] -> seedIfEmpty db = db)
  /\ seedIfEmpty (seedIfEmpty db) = seedIfEmpty db.
Proof.
  assert (Hseed : countAll db = Normal 0%Z ->
                  exists new,
                    rows (seedIfEmpty db) = new
                    /\ map titleAndContent new = map sampleText samples
                    /\ fault (seedIfEmpty db) = None).
  { intros Hzero. unfold seedIfEmpty. rewrite Hzero. simpl Z.eqb. cbv iota.
    apply countAll_zero in Hzero as [Hfault Hrows].
    destruct (insertAll_rows samples db Hfault) as (new & Hnew & Htexts & Hf).
    rewrite Hrows in Hnew. exists new. now rewrite Hnew. }
  split; [reflexivity|].
  split; [|split; [|split; [|split]]].
  - intros Hzero. destruct (Hseed Hzero) as (new & H1 & H2 & _). now rewrite H1.
  - apply seedIfEmpty_not_zero.
  - split.
    + intros Hlen.
      destruct (countAll db) as [count|e] eqn:Hcount.
      * destruct (Z.eq_dec count 0) as [-> | Hne]; [reflexivity|].
        rewrite seedIfEmpty_not_zero in Hlen by congruence. lia.
      * rewrite seedIfEmpty_not_zero in Hlen by congruence. lia.
    + intros Hzero. destruct (Hseed Hzero) as (new & H1 & H2 & _).
      apply countAll_zero in Hzero as [_ Hrows].
      rewrite H1, Hrows.
      rewrite <- (length_map titleAndContent), H2, length_map. reflexivity.
  - apply seedIfEmpty_nonempty.
  - destruct (countAll db) as [count|e] eqn:Hcount.
    + destruct (Z.eq_dec count 0) as [-> | Hne].
      * destruct (Hseed eq_refl) as (new & H1 & H2 & _).
        apply seedIfEmpty_nonempty. rewrite H1.
        intros ->. discriminate H2.
      * assert (Hsame : seedIfEmpty db = db)
          by (apply seedIfEmpty_not_zero; congruence).
        now rewrite !Hsame.
    + assert (Hsame : seedIfEmpty db = db)
        by (apply seedIfEmpty_not_zero; congruence).
      now rewrite !Hsame.
Qed.

(** On the empty store the three samples are inserted, once. *)
Lemma seedIfEmpty_policy_empty_store :
  map titleAndContent (rows (seedIfEmpty emptyDb)) = map sampleText samples
  /\ seedIfEmpty (seedIfEmpty emptyDb) = seedIfEmpty emptyDb.
Proof.
  destruct (seedIfEmpty_policy emptyDb) as (_ & Hseeded & _ & _ & _ & Hagain).
  split; [exact (Hseeded eq_refl) | exact Hagain].
Defined.

End SeedFacts.

(* ================================================================== *)
(** ** HTTP routes *)
(* ================================================================== *)

Module RouteFacts.
Import Store AiClient Render ArticleService Routes Spec Scenario Properties.

Lemma probe_cases (db : Db) :
  (probe db = Normal tt /\ fault db = None)
  \/ (exists e, probe db = Throw e /\ fault db = Some e).
Proof.
  unfold probe, run. destruct (fault db) as [e|]; [right | left]; eauto.
Qed.

(** C8: the health route always answers, never raises; it answers 200 with
    ok true, db connected and the timestamp exactly when the probe
    succeeds, and 503 with ok false, db disconnected and the message of
    the error exactly when the probe fails. *)
Theorem healthRoute_reports_probe (db : Db) (timestamp : jsstring) :
  exists r,
    healthRoute db timestamp = Normal r
    /\ (probe db = Normal tt <-> code r = 200%Z)
    /\ ((exists e, probe db = Throw e) <-> code r = 503%Z)
    /\ (code r = 200%Z ->
        body r = JsonBody (JObj [ (lit "ok", JBool true);
                                  (lit "db", JStr (lit "connected"));
                                  (lit "timestamp", JStr timestamp) ]))
    /\ (forall e, probe db = Throw e ->
                  body r = JsonBody (JObj [ (lit "ok", JBool false);
                                            (lit "db", JStr (lit "disconnected"));
                                            (lit "error", JStr (err_message e)) ])).
Proof.
  unfold healthRoute.
  destruct (probe_cases db) as [[Hp _] | (e & Hp & _)]; rewrite Hp; cbn [bind tryCatch].
  - eexists. split; [reflexivity|]. cbn [code body].
    split; [tauto|]. split; [|split].
    + split; [intros (e & He); discriminate He | discriminate].
    + reflexivity.
    + discriminate.
  - eexists. split; [reflexivity|]. cbn [code body].
    split; [|split; [|split]].
    + split; discriminate.
    + split; [reflexivity | eauto].
    + discriminate.
    + intros e' [= <-]. reflexivity.
Qed.

Ltac field_present := eexists; split; [reflexivity | eexists; reflexivity].

Ltac field_absent :=
  let fields := fresh "fields" in
  let Hbody := fresh "Hbody" in
  let text := fresh "text" in
  let Hfield := fresh "Hfield" in
  intros (fields & Hbody & text & Hfield);
  injection Hbody as <-; vm_compute in Hfield; discriminate Hfield.

Ltac not_an_error :=
  match goal with
  | H : isErrorResponse _ |- _ => unfold isErrorResponse in H; cbn [code] in H; lia
  end.

(** A response with the JSON body [errorJson] builds. *)
Lemma errorJson_shape (c : Z) (summary : jsstring) (err : JsError) :
  errorWithDetails (errorJson c summary err).
Proof. split; field_present. Qed.

(** C7, as stated, fails: asking for an article that is not there is
    answered 404 with a body that has an error field and no details
    field. *)
Lemma not_found_has_no_details :
  produced notFound /\ isErrorResponse notFound /\ ~ errorWithDetails notFound.
Proof.
  split; [|split].
  - apply (by_get emptyDb (lit "1")). reflexivity.
  - unfold isErrorResponse. cbn [code notFound]. lia.
  - intros [_ Hdetails]. revert Hdetails. cbn [body notFound]. field_absent.
Qed.

(** Every response of a route on a parsed request is sent by its
    handler. *)
Lemma produced_sent (r : Response) : produced r -> sent r.
Proof.
  intros [articles r0 H | db idParam r0 H | env net db reqBody r0 H
         | diagnostics r0 H | db timestamp r0 H].
  - exact (sent_list articles H).
  - exact (sent_get (getArticle db (PText idParam)) H).
  - unfold generateRoute in H.
    destruct (createArticle env net db (requestTopic reqBody)) as [[created db'] made].
    exact (sent_generate created H).
  - exact (sent_diagnostics diagnostics H).
  - exact (sent_health (probe db) timestamp H).
Qed.

(** The error responses of the handlers, route by route. *)
Lemma error_response_cases (r : Response) :
  sent r -> isErrorResponse r ->
  (exists summary err, r = errorJson 500 summary err)
  \/ r = {| code := 404;
            body := JsonBody (JObj [ (lit "error", JStr (lit "Not found")) ]) |}
  \/ (exists err, r = {| code := 503; body := disconnectedBody err |}).
Proof.
  intros Hsent Herror.
  destruct Hsent as [articles r H | article r H | created r H
                    | diagnostics r H | probed timestamp r H].
  - destruct articles as [rs|e]; injection H as <-; [not_an_error|].
    left. eauto.
  - destruct article as [[a|]|e]; injection H as <-; [not_an_error | |].
    + right. left. reflexivity.
    + left. eauto.
  - destruct created as [article|e]; injection H as <-; [not_an_error|].
    left. eauto.
  - destruct diagnostics as [d|e]; injection H as <-; [not_an_error|].
    left. eauto.
  - destruct probed as [[]|e]; injection H as <-; [not_an_error|].
    right. right. exists e. reflexivity.
Qed.

(** C7, amended: every error response sent by a route handler, whatever
    the call it awaits resolves or rejects with, is a JSON object with an
    error string.  Every 500 response also has a details string.  The 404
    response of the article route is exactly the object with error Not
    found, and the 503 response of the health route is the object with ok
    false, db disconnected and the message of the failure as error;
    neither has a details field. *)
Theorem error_responses_shape (r : Response) :
  sent r -> isErrorResponse r ->
  hasStringField (body r) (lit "error")
  /\ (code r = 500%Z -> errorWithDetails r)
  /\ (code r = 404%Z ->
      body r = JsonBody (JObj [ (lit "error", JStr (lit "Not found")) ]))
  /\ (code r = 503%Z -> exists err, body r = disconnectedBody err)
  /\ (code r <> 500%Z -> ~ hasStringField (body r) (lit "details")).
Proof.
  intros Hsent Herror.
  destruct (error_response_cases Hsent Herror)
    as [(summary & err & ->) | [-> | (err & ->)]];
    cbn [code body errorJson disconnectedBody].
  - split; [field_present|].
    split; [intros _; apply errorJson_shape|].
    split; [discriminate|]. split; [discriminate | congruence].
  - split; [field_present|].
    split; [discriminate|]. split; [reflexivity|]. split; [discriminate|].
    intros _. field_absent.
  - split; [field_present|].
    split; [discriminate|]. split; [discriminate|].
    split; [intros _; exists err; reflexivity|].
    intros _. field_absent.
Qed.

(** On the empty store the article route answers 404 for the id 1: the
    body has an error string and no details.  On a store that cannot be
    reached the health route answers 503 with the message of the failure
    as error, and no details. *)
Lemma error_responses_shape_not_found :
  (getRoute emptyDb (lit "1") = Normal notFound
   /\ hasStringField (body notFound) (lit "error")
   /\ ~ hasStringField (body notFound) (lit "details"))
  /\ (healthRoute unreachableDb [] = Normal {| code := 503; body := disconnectedBody sqliteError |}
      /\ hasStringField (disconnectedBody sqliteError) (lit "error")
      /\ ~ hasStringField (disconnectedBody sqliteError) (lit "details")).
Proof.
  assert (Hfirst : sent notFound)
    by (apply (sent_get (getArticle emptyDb (PText (lit "1")))); reflexivity).
  assert (Herror : isErrorResponse notFound)
    by (unfold isErrorResponse; cbn [code notFound]; lia).
  assert (Hsecond : sent {| code := 503; body := disconnectedBody sqliteError |})
    by (apply (sent_health (probe unreachableDb) []); reflexivity).
  assert (Herror' : isErrorResponse {| code := 503; body := disconnectedBody sqliteError |})
    by (unfold isErrorResponse; cbn [code]; lia).
  destruct (error_responses_shape Hfirst Herror) as (Hfield & _ & _ & _ & Hnone).
  destruct (error_responses_shape Hsecond Herror') as (Hfield' & _ & _ & _ & Hnone').
  split; (split; [reflexivity|]).
  - split; [exact Hfield|]. apply Hnone. discriminate.
  - split; [exact Hfield'|]. apply Hnone'. discriminate.
Defined.

Lemma requestTopic_truthy (reqBody : JsVal) : truthy (requestTopic reqBody) = true.
Proof.
  unfold requestTopic, or.
  destruct (truthy (optGet reqBody (lit "topic"))) eqn:E; [exact E | reflexivity].
Qed.

(** C10, as stated, fails: a request whose topic is the empty array has a
    truthy topic, which is handed to the article service as it is and
    renders as the empty string in every text built from it.  The article
    is the one of the empty topic: without a credential, a row whose title
    is Fallback article on followed by a space and nothing else. *)
Lemma empty_array_topic_gives_empty_topic_article :
  truthy (optGet emptyArrayBody (lit "topic")) = true
  /\ requestTopic emptyArrayBody = JArr []
  /\ toStringOf (JArr []) = Normal []
  /\ (forall env net db,
         createArticle env net db (requestTopic emptyArrayBody)
         = createArticle env net db (JStr []))
  /\ (exists row,
         fst (fst (generateRoute noCredential offline emptyDb emptyArrayBody))
         = Normal {| code := 201; body := ArticleBody row |}
         /\ row_title row = lit "Fallback article on "
         /\ rows (snd (fst (generateRoute noCredential offline emptyDb emptyArrayBody)))
            = [row]).
Proof.
  split; [reflexivity|]. split; [reflexivity|]. split; [reflexivity|]. split.
  - intros env net db. reflexivity.
  - eexists. split; [reflexivity|]. split; reflexivity.
Qed.

(** C10, amended: a request whose topic is the empty string, null, false
    or any other falsy value gets the default topic and is answered
    exactly as a request without a topic field; whatever the body, the
    topic handed to the article service is never the empty string
    itself. *)
Theorem falsy_topic_uses_default (env : Env) (net : Network) (db : Db)
        (reqBody : JsVal) :
  truthy (optGet reqBody (lit "topic")) = false ->
  requestTopic reqBody = JStr defaultTopic
  /\ (forall bare, optGet bare (lit "topic") = JUndefined ->
                   generateRoute env net db reqBody = generateRoute env net db bare)
  /\ (forall anyBody, requestTopic anyBody <> JStr []).
Proof.
  intros Hfalsy.
  assert (Hdefault : requestTopic reqBody = JStr defaultTopic).
  { unfold requestTopic, or. now rewrite Hfalsy. }
  split; [exact Hdefault|]. split.
  - intros bare Hbare. unfold generateRoute. rewrite Hdefault.
    unfold requestTopic, or. rewrite Hbare. reflexivity.
  - intros anyBody H. pose proof (requestTopic_truthy anyBody) as Ht.
    rewrite H in Ht. discriminate Ht.
Qed.

(** The empty string, null and false as topic each give the default
    topic, and the empty string is answered as the empty body is. *)
Lemma falsy_topic_uses_default_examples :
  requestTopic (JObj [ (lit "topic", JStr []) ]) = JStr defaultTopic
  /\ requestTopic (JObj [ (lit "topic", JNull) ]) = JStr defaultTopic
  /\ requestTopic (JObj [ (lit "topic", JBool false) ]) = JStr defaultTopic
  /\ generateRoute noCredential offline emptyDb (JObj [ (lit "topic", JStr []) ])
     = generateRoute noCredential offline emptyDb (JObj []).
Proof.
  split; [|split; [|split]].
  - exact (proj1 (falsy_topic_uses_default noCredential offline emptyDb
                    (JObj [ (lit "topic", JStr []) ]) eq_refl)).
  - exact (proj1 (falsy_topic_uses_default noCredential offline emptyDb
                    (JObj [ (lit "topic", JNull) ]) eq_refl)).
  - exact (proj1 (falsy_topic_uses_default noCredential offline emptyDb
                    (JObj [ (lit "topic", JBool false) ]) eq_refl)).
  - exact (proj1 (proj2 (falsy_topic_uses_default noCredential offline emptyDb
                           (JObj [ (lit "topic", JStr []) ]) eq_refl))
                 (JObj []) eq_refl).
Defined.

End RouteFacts.

(* ================================================================== *)
(** ** Token verification *)
(* ================================================================== *)

Module TokenFacts.
Import AiClient AiDiagnostics Spec Scenario Properties.

Lemma typeError_internal (msg : jsstring) : internal (typeError msg).
Proof. reflexivity. Qed.

Lemma get_throws_internal (v : JsVal) (k : jsstring) (e : JsError) :
  get v k = Throw e -> internal e.
Proof.
  unfold get. destruct (nullish v); [|discriminate].
  intros [= <-]. reflexivity.
Qed.

Lemma callIncludes_throws_internal (v : JsVal) (needle : jsstring) (e : JsError) :
  callIncludes v needle = Throw e -> internal e.
Proof.
  destruct v; simpl; try discriminate; intros [= <-]; reflexivity.
Qed.

Lemma isFreeModel_throws_internal (m : JsVal) (e : JsError) :
  isFreeModel m = Throw e -> internal e.
Proof.
  unfold isFreeModel.
  destruct (get m (lit "id")) as [v|e'] eqn:Hget; simpl.
  - destruct (truthy v); [apply callIncludes_throws_internal | discriminate].
  - intros [= <-]. exact (get_throws_internal _ _ Hget).
Qed.

Lemma filterM_throws_internal (items : list JsVal) (e : JsError) :
  filterM isFreeModel items = Throw e -> internal e.
Proof.
  induction items as [|m items IH]; simpl; [discriminate|].
  destruct (isFreeModel m) as [keep|e'] eqn:Hm; simpl.
  - destruct (filterM isFreeModel items) as [kept|e'']; simpl; [discriminate|].
    intros [= <-]. now apply IH.
  - intros [= <-]. exact (isFreeModel_throws_internal _ Hm).
Qed.

Lemma freeModelIds_throws_internal (v : JsVal) (e : JsError) :
  freeModelIds v = Throw e -> internal e.
Proof.
  destruct v; simpl; try (intros [= <-]; reflexivity).
  destruct (filterM isFreeModel items) as [kept|e'] eqn:H; simpl; [discriminate|].
  intros [= <-]. exact (filterM_throws_internal _ H).
Qed.

Lemma internal_not_401 (e : JsError) : internal e -> responseStatusIs e 401 = false.
Proof. unfold internal, responseStatusIs. now intros ->. Qed.

(** X1: verifyToken never raises, whatever the models listing answers:
    a listing that cannot be read (data that is not an array, an entry that
    is null, an id without includes) is caught by its handler like a
    network failure.  Its result is false exactly when the listing request
    is rejected with a 401 response, and true in every other case. *)
Theorem verifyToken_only_401_fails (net : Network) (token : jsstring) :
  verifyTokenFull net token = Normal (verifyToken net token)
  /\ (verifyToken net token = false <-> unauthorized (getModels net token)).
Proof.
  split.
  - unfold verifyTokenFull, verifyToken.
    destruct (getModels net token) as [d|err]; simpl.
    + destruct (truthy (optGet d (lit "data"))); [|reflexivity].
      destruct (freeModelIds (optGet d (lit "data"))) as [ids|e] eqn:Hids; simpl.
      * reflexivity.
      * now rewrite (internal_not_401 (freeModelIds_throws_internal _ Hids)).
    + now destruct (responseStatusIs err 401).
  - unfold verifyToken, unauthorized, responseStatusIs.
    destruct (getModels net token) as [d|err].
    + split; [discriminate | intros (e & r & H & _); discriminate H].
    + destruct (err_response err) as [r|] eqn:Hr.
      * destruct (status r =? 401)%Z eqn:E.
        -- apply Z.eqb_eq in E. split; [|reflexivity].
           intros _. exists err, r. auto.
        -- apply Z.eqb_neq in E. split; [discriminate|].
           intros (e & r' & [= <-] & Hr' & Hs). congruence.
      * split; [discriminate|].
        intros (e & r' & [= <-] & Hr' & _). congruence.
Qed.

End TokenFacts.

(* ================================================================== *)
(** ** The external calls of a generation *)
(* ================================================================== *)

Module CallFacts.
Import AiClient Spec Scenario Properties StrFacts CandidateFacts.

Lemma uniqueModels_closed (m : jsstring) :
  uniqueModels m = m :: filter (fun a => negb (Str.eqb a m)) alternativeFreeModels.
Proof.
  unfold uniqueModels. rewrite newSet_keepFirst, modelsToTry_closed.
  apply keepFirstFrom_NoDup_id; [|intros x _ []].
  constructor.
  - rewrite filter_neq_In. tauto.
  - apply NoDup_filter, alternativeFreeModels_NoDup.
Qed.

Lemma uniqueModels_length (m : jsstring) : 1 <= length (uniqueModels m) <= 6.
Proof.
  rewrite uniqueModels_closed.
  pose proof (filter_length_le (fun a => negb (Str.eqb a m)) alternativeFreeModels) as H.
  change (length alternativeFreeModels) with 5 in H.
  cbn [length]. lia.
Qed.

(** The loop posts one request per model of a prefix of its list, and
    returns null or a truthy value. *)
Lemma tryModels_shape (net : Network) (token prompt : jsstring)
      (models : list jsstring) (sent : list Payload) :
  exists n,
    n <= length models
    /\ snd (tryModels net token prompt models sent)
       = sent ++ map (fun m => buildOpenRouterPayload prompt m) (firstn n models)
    /\ (fst (tryModels net token prompt models sent) = JNull
        \/ truthy (fst (tryModels net token prompt models sent)) = true).
Proof.
  revert sent.
  induction models as [|m models IH]; intros sent.
  - exists 0. simpl. rewrite app_nil_r. auto.
  - simpl tryModels.
    assert (Hnext : exists n,
               n <= length (m :: models)
               /\ snd (tryModels net token prompt models
                                 (sent ++ [buildOpenRouterPayload prompt m]))
                  = sent ++ map (fun m => buildOpenRouterPayload prompt m)
                                (firstn n (m :: models))
               /\ (fst (tryModels net token prompt models
                                  (sent ++ [buildOpenRouterPayload prompt m])) = JNull
                   \/ truthy (fst (tryModels net token prompt models
                                             (sent ++ [buildOpenRouterPayload prompt m])))
                      = true)).
    { destruct (IH (sent ++ [buildOpenRouterPayload prompt m])) as (n & Hn & Hs & Hf).
      exists (S n). split; [simpl; lia|]. split; [|exact Hf].
      rewrite Hs, <- app_assoc. reflexivity. }
    assert (Hstop : forall v,
               v = JNull \/ truthy v = true ->
               exists n,
                 n <= length (m :: models)
                 /\ snd (v, sent ++ [buildOpenRouterPayload prompt m])
                    = sent ++ map (fun m => buildOpenRouterPayload prompt m)
                                  (firstn n (m :: models))
                 /\ (fst (v, sent ++ [buildOpenRouterPayload prompt m]) = JNull
                     \/ truthy (fst (v, sent ++ [buildOpenRouterPayload prompt m])) = true)).
    { intros v Hv. exists 1. split; [simpl; lia|]. split; [reflexivity | exact Hv]. }
    destruct (bind _ _) as [text|err].
    + destruct (truthy text) eqn:Ht; [apply Hstop; now right | exact Hnext].
    + destruct (statusIs _ 401); [apply Hstop; now left | exact Hnext].
Qed.

(** X2: the external calls of generateViaOpenRouter.  Without a credential
    (unset or empty) nothing is called.  With one, the models listing is
    called first; if that is refused as unauthorized nothing else is
    called and the result is null; otherwise one request is posted for
    each model of a prefix of the candidate list, each model at most once.
    So a generation makes at most 7 external calls, and it returns null or
    a truthy value. *)
Theorem generateViaOpenRouter_calls (env : Env) (net : Network) (prompt : jsstring) :
  let text := fst (generateViaOpenRouter env net prompt) in
  let made := snd (generateViaOpenRouter env net prompt) in
  (text = JNull \/ truthy text = true)
  /\ length made <= 7
  /\ (envOrEmpty (OPENROUTER_API_KEY env) = [] -> text = JNull /\ made = [])
  /\ (forall token,
         OPENROUTER_API_KEY env = Some token -> token <> [] ->
         (verifyToken net token = false -> text = JNull /\ made = [GetModels token])
         /\ (verifyToken net token = true ->
             exists n,
               n <= length (uniqueModels (configuredModel env))
               /\ made = GetModels token
                           :: postsFor token prompt (uniqueModels (configuredModel env)) n
               /\ NoDup (firstn n (uniqueModels (configuredModel env))))).
Proof.
  intros text made. subst text made.
  unfold generateViaOpenRouter.
  destruct (OPENROUTER_API_KEY env) as [[|c token]|] eqn:Hkey; cbn [envOrEmpty].
  - cbn [fst snd length]. split; [now left|]. split; [lia|].
    split; [intros _; split; reflexivity|].
    intros token Htoken H. congruence.
  - destruct (tryModels_shape net (c :: token) prompt
                              (uniqueModels (configuredModel env)) [])
      as (n & Hn & Hsent & Hres).
    pose proof (uniqueModels_length (configuredModel env)) as Hlen.
    assert (Hnodup : NoDup (firstn n (uniqueModels (configuredModel env)))).
    { rewrite uniqueModels_closed.
      assert (Hall : NoDup (configuredModel env
                              :: filter (fun a => negb (Str.eqb a (configuredModel env)))
                                        alternativeFreeModels)).
      { constructor.
        - rewrite filter_neq_In. tauto.
        - apply NoDup_filter, alternativeFreeModels_NoDup. }
      rewrite <- (firstn_skipn n) in Hall. now apply NoDup_app_remove_r in Hall. }
    destruct (verifyToken net (c :: token)) eqn:Hverify; cbn [negb].
    + destruct (tryModels net (c :: token) prompt
                          (uniqueModels (configuredModel env)) []) as [res sent].
      cbn [fst snd] in *. subst sent. cbn [app].
      split; [exact Hres|]. split.
      * cbn [length]. rewrite !length_map, length_firstn. lia.
      * split; [discriminate|].
        intros token' Htoken' _. injection Htoken' as <-. split; [congruence|].
        intros _. exists n. split; [exact Hn|]. split; [|exact Hnodup].
        unfold postsFor. now rewrite map_map.
    + cbn [fst snd length]. split; [now left|]. split; [lia|].
      split; [discriminate|].
      intros token' Htoken' _. injection Htoken' as <-.
      split; [intros _; split; reflexivity | congruence].
  - cbn [fst snd length]. split; [now left|]. split; [lia|].
    split; [intros _; split; reflexivity|].
    discriminate.
Qed.

(** With the test credential and two rate-limited answers, the listing
    and three requests are made. *)
Lemma generateViaOpenRouter_calls_rate_limited :
  length (snd (generateViaOpenRouter withCredential rateLimitedTwice
                                     (promptFor (JStr daos)))) <= 7
  /\ exists n,
       snd (generateViaOpenRouter withCredential rateLimitedTwice
                                  (promptFor (JStr daos)))
       = GetModels (lit "sk-or-test")
           :: postsFor (lit "sk-or-test") (promptFor (JStr daos))
                       (uniqueModels (configuredModel withCredential)) n.
Proof.
  destruct (generateViaOpenRouter_calls withCredential rateLimitedTwice
                                        (promptFor (JStr daos)))
    as (_ & Hlen & _ & Hkey).
  split; [exact Hlen|].
  destruct (Hkey (lit "sk-or-test") eq_refl ltac:(discriminate)) as [_ Hposts].
  destruct (Hposts eq_refl) as (n & _ & Hmade & _).
  exists n. exact Hmade.
Defined.

End CallFacts.

(* ================================================================== *)
(** ** Configuration and error formatting *)
(* ================================================================== *)

Module ConfigFacts.
Import AiClient AiDiagnostics Spec Scenario Properties StrFacts ParseFacts GenerateFacts.

Lemma trimStart_head_ink (s r : jsstring) (c : N) :
  trimStart s = c :: r -> isWhiteSpace c = false.
Proof.
  induction s as [|d s IH]; simpl; [discriminate|].
  destruct (isWhiteSpace d) eqn:E; [exact IH|].
  intros [= <- _]. exact E.
Qed.

Lemma trimStart_snoc_ink (a : jsstring) (c : N) :
  isWhiteSpace c = false -> exists w, trimStart (a ++ [c]) = w ++ [c].
Proof.
  intros Hc. induction a as [|d a IH]; simpl.
  - rewrite Hc. now exists [].
  - destruct (isWhiteSpace d); [exact IH|].
    now exists (d :: a).
Qed.

Lemma trimEnd_keeps_head (c : N) (r : jsstring) :
  isWhiteSpace c = false -> exists r', trimEnd (c :: r) = c :: r'.
Proof.
  intros Hc. unfold trimEnd. simpl rev.
  destruct (trimStart_snoc_ink (rev r) c Hc) as (w & ->).
  rewrite rev_app_distr. simpl. eauto.
Qed.

Lemma trimStart_trim (s : jsstring) : trimStart (trim s) = trim s.
Proof.
  unfold trim.
  destruct (trimStart s) as [|c r] eqn:E; [reflexivity|].
  pose proof (trimStart_head_ink s E) as Hc.
  destruct (trimEnd_keeps_head c r Hc) as (r' & ->).
  simpl. now rewrite Hc.
Qed.

Lemma trimEnd_idempotent (s : jsstring) : trimEnd (trimEnd s) = trimEnd s.
Proof.
  unfold trimEnd. now rewrite rev_involutive, trimStart_idempotent.
Qed.

(** Trimming twice is trimming once. *)
Lemma trim_idempotent (s : jsstring) : trim (trim s) = trim s.
Proof.
  unfold trim at 1. rewrite trimStart_trim.
  unfold trim. apply trimEnd_idempotent.
Qed.

Lemma trim_empty_iff (s : jsstring) : trim s = [] <-> hasInk s = false.
Proof.
  rewrite <- (hasInk_trim s). split.
  - now intros ->.
  - intros Hink. pose proof (trimStart_trim s) as Hstart.
    destruct (trim s) as [|c r]; [reflexivity|].
    apply trimStart_head_ink in Hstart. simpl in Hink. now rewrite Hstart in Hink.
Qed.

(** X3: the configured model is never empty and has no white space at
    either end.  An AI_MODEL that is unset, empty or made of white space
    selects the fallback model; any other value is used trimmed. *)
Theorem configuredModel_trimmed (env : Env) :
  configuredModel env <> []
  /\ trimmed (configuredModel env)
  /\ (hasInk (envOrEmpty (AI_MODEL env)) = false -> configuredModel env = fallbackModel)
  /\ (hasInk (envOrEmpty (AI_MODEL env)) = true ->
      configuredModel env = trim (envOrEmpty (AI_MODEL env))).
Proof.
  unfold configuredModel, trimmed.
  destruct (trim (envOrEmpty (AI_MODEL env))) as [|c r] eqn:E.
  - split; [discriminate|]. split; [reflexivity|]. split; [reflexivity|].
    apply trim_empty_iff in E. congruence.
  - split; [discriminate|]. split.
    + rewrite <- E. apply trim_idempotent.
    + split; [|reflexivity].
      intros Hblank. apply trim_empty_iff in Hblank. congruence.
Qed.

(** A model written with spaces around it is used without them. *)
Lemma configuredModel_trimmed_padded :
  configuredModel paddedModel = lit "openai/gpt-4o"
  /\ configuredModel noCredential = fallbackModel.
Proof.
  split.
  - destruct (configuredModel_trimmed paddedModel) as (_ & _ & _ & H).
    rewrite (H eq_refl). reflexivity.
  - destruct (configuredModel_trimmed noCredential) as (_ & _ & H & _).
    exact (H eq_refl).
Defined.

Lemma timed_out_iff (err : JsError) :
  Str.eqb (err_name err) (lit "AbortError") || optEqb (err_code err) (lit "ECONNABORTED")
  = true
  <-> err_name err = lit "AbortError" \/ err_code err = Some (lit "ECONNABORTED").
Proof.
  rewrite orb_true_iff, eqb_eq. unfold optEqb.
  destruct (err_code err) as [code|].
  - rewrite eqb_eq. split; intros [H | H]; auto; [right; congruence | right; congruence].
  - split; intros [H | H]; auto; discriminate.
Qed.

(** X4: formatHttpError reports a status and the response data exactly
    when the rejection carries a response, and then no error text; without
    a response it reports an error text that is never empty, which is
    Request timed out for an AbortError or the code ECONNABORTED, else the
    message of the error, else Unknown error. *)
Theorem formatHttpError_shape (err : JsError) :
  (forall r, err_response err = Some r ->
             info_status (formatHttpError err) = Some (status r)
             /\ info_data (formatHttpError err) = Some (data r)
             /\ info_message (formatHttpError err) <> None
             /\ info_error (formatHttpError err) = None)
  /\ (err_response err = None ->
      info_status (formatHttpError err) = None
      /\ info_data (formatHttpError err) = None
      /\ info_message (formatHttpError err) = None
      /\ exists text,
           info_error (formatHttpError err) = Some text
           /\ text <> []
           /\ (err_name err = lit "AbortError" \/ err_code err = Some (lit "ECONNABORTED") ->
               text = lit "Request timed out")
           /\ (err_name err <> lit "AbortError" ->
               err_code err <> Some (lit "ECONNABORTED") ->
               text = orStr (err_message err) (lit "Unknown error"))).
Proof.
  unfold formatHttpError.
  destruct (err_response err) as [r|].
  - split; [|discriminate].
    intros r' [= <-]. cbn. repeat split; discriminate.
  - split; [discriminate|]. intros _.
    pose proof (timed_out_iff err) as Htimeout.
    destruct (Str.eqb (err_name err) (lit "AbortError")
              || optEqb (err_code err) (lit "ECONNABORTED")); cbn.
    + do 3 (split; [reflexivity|]).
      eexists. split; [reflexivity|]. split; [discriminate|].
      split; [reflexivity|].
      intros Hn Hc. destruct (proj1 Htimeout eq_refl); contradiction.
    + do 3 (split; [reflexivity|]).
      eexists. split; [reflexivity|]. split; [|split].
      * unfold orStr. destruct (err_message err); discriminate.
      * intros H. apply Htimeout in H. discriminate H.
      * reflexivity.
Qed.

End ConfigFacts.

(* ================================================================== *)
(** ** The store and the article service *)
(* ================================================================== *)

Module ServiceFacts.
Import Store AiClient ArticleService Routes Server Spec Scenario Properties.
Import StrFacts GenerateFacts SeedFacts.

Lemma maxId_ge (rs : list Row) (r : Row) : In r rs -> (id r <= maxId rs)%Z.
Proof.
  induction rs as [|x rs IH]; intros Hin; [contradiction|].
  simpl. destruct Hin as [-> | Hin]; [lia|].
  specialize (IH Hin). lia.
Qed.

Lemma find_last (f : Row -> bool) (rs : list Row) (x : Row) :
  (forall r, In r rs -> f r = false) -> f x = true -> find f (rs ++ [x]) = Some x.
Proof.
  intros Hnone Hx. induction rs as [|r rs IH]; simpl.
  - now rewrite Hx.
  - rewrite (Hnone r) by now left.
    apply IH. intros r' Hr'. apply Hnone. now right.
Qed.

Lemma StronglySorted_snoc (l : list Z) (y : Z) :
  StronglySorted Z.lt l -> (forall x, In x l -> (x < y)%Z) ->
  StronglySorted Z.lt (l ++ [y]).
Proof.
  induction 1 as [|a l Hl IH Ha]; intros Hlt; simpl.
  - repeat constructor.
  - constructor.
    + apply IH. intros x Hx. apply Hlt. now right.
    + rewrite Forall_forall in *. intros x Hx.
      apply in_app_iff in Hx as [Hx | [<- | []]]; [now apply Ha|].
      apply Hlt. now left.
Qed.

Lemma StronglySorted_lt_NoDup (l : list Z) : StronglySorted Z.lt l -> NoDup l.
Proof.
  induction 1 as [|a l Hl IH Ha]; constructor; [|exact IH].
  intros Hin. rewrite Forall_forall in Ha. specialize (Ha a Hin). lia.
Qed.

(** An insert into a reachable store appends one row with a fresh id,
    larger than every id in the table, and reports that id. *)
Lemma insert_reachable_row (db : Db) (t c : jsstring) :
  fault db = None ->
  exists row,
    insert db t c = (Normal (id row), snd (insert db t c))
    /\ appended db (snd (insert db t c)) [row]
    /\ row_title row = t /\ row_content row = c /\ created_at row = now db
    /\ (forall r, In r (rows db) -> (id r < id row)%Z)
    /\ integerOfText (snd (insert db t c)) = integerOfText db.
Proof.
  intros Hfault. unfold insert. rewrite Hfault. cbn [snd].
  exists {| id := Z.max (sequence db) (maxId (rows db)) + 1;
            row_title := t; row_content := c; created_at := now db |}.
  split; [reflexivity|]. unfold appended. cbn.
  repeat split; try reflexivity; try assumption.
  intros r Hr. pose proof (maxId_ge _ _ Hr). lia.
Qed.

Lemma insert_unreachable (db : Db) (t c : jsstring) (e : JsError) :
  fault db = Some e -> insert db t c = (Throw e, db).
Proof. intros H. unfold insert. now rewrite H. Qed.

Lemma insert_increasing (db : Db) (t c : jsstring) :
  increasingIds db -> increasingIds (snd (insert db t c)).
Proof.
  intros Hinc. destruct (fault db) as [e|] eqn:Hfault.
  - now rewrite (insert_unreachable db t c Hfault).
  - destruct (insert_reachable_row db t c Hfault)
      as (row & _ & (Hrows & _) & _ & _ & _ & Hfresh & _).
    unfold increasingIds. rewrite Hrows, map_app. simpl map.
    apply StronglySorted_snoc; [exact Hinc|].
    intros x Hx. apply in_map_iff in Hx as (r & <- & Hr). now apply Hfresh.
Qed.

Lemma insertAll_increasing (l : list Sample) (db : Db) :
  increasingIds db -> increasingIds (insertAll db l).
Proof.
  revert db. induction l as [|a l IH]; intros db Hinc; [exact Hinc|].
  rewrite insertAll_cons. apply IH. now apply insert_increasing.
Qed.

Lemma seedIfEmpty_increasing (db : Db) :
  increasingIds db -> increasingIds (seedIfEmpty db).
Proof.
  intros Hinc. unfold seedIfEmpty.
  destruct (countAll db) as [count|e]; [|exact Hinc].
  destruct (count =? 0)%Z; [|exact Hinc].
  now apply insertAll_increasing.
Qed.

Lemma generateArticle_completes (env : Env) (net : Network) (topic : JsVal) :
  exists g, fst (generateArticle env net topic) = Normal g.
Proof.
  pose proof (generateArticle_cases env net topic) as H.
  destruct (generatedText env net topic); eauto.
Qed.

(** createArticle on a reachable store. *)
Lemma createArticle_reachable (env : Env) (net : Network) (db : Db) (topic : JsVal) :
  fault db = None ->
  exists g row,
    fst (generateArticle env net (effectiveTopic topic)) = Normal g
    /\ createArticle env net db topic
       = (Normal (Some row), afterCreate env net db topic,
          snd (generateArticle env net (effectiveTopic topic)))
    /\ appended db (afterCreate env net db topic) [row]
    /\ row_title row = title g /\ row_content row = content g
    /\ created_at row = now db
    /\ (forall r, In r (rows db) -> (id r < id row)%Z)
    /\ getArticle (afterCreate env net db topic) (PInt (id row)) = Normal (Some row).
Proof.
  intros Hfault.
  destruct (generateArticle_completes env net (effectiveTopic topic)) as (g & Hg).
  destruct (insert_reachable_row db (title g) (content g) Hfault)
    as (row & Hinsert & Happ & Ht & Hc & Hnow & Hfresh & Hconv).
  assert (Hfind : selectById (snd (insert db (title g) (content g))) (PInt (id row))
                  = Normal (Some row)).
  { destruct Happ as (Hrows & Hf & _).
    unfold selectById, run. rewrite Hf, Hfault, Hrows.
    rewrite find_last; [reflexivity | |].
    - intros r Hr. simpl. apply Z.eqb_neq. specialize (Hfresh r Hr). lia.
    - simpl. apply Z.eqb_refl. }
  assert (Hcreate : createArticle env net db topic
                    = (Normal (Some row), snd (insert db (title g) (content g)),
                       snd (generateArticle env net (effectiveTopic topic)))).
  { unfold createArticle. fold (effectiveTopic topic).
    destruct (generateArticle env net (effectiveTopic topic)) as [generated made].
    cbn [fst snd] in *. subst generated.
    rewrite Hinsert. now rewrite Hfind. }
  exists g, row. unfold afterCreate. rewrite Hcreate. cbn [fst snd].
  unfold getArticle. repeat split; try assumption; apply Happ.
Qed.

(** createArticle on a store that cannot be reached. *)
Lemma createArticle_unreachable (env : Env) (net : Network) (db : Db) (topic : JsVal)
      (e : JsError) :
  fault db = Some e ->
  createArticle env net db topic
  = (Throw e, db, snd (generateArticle env net (effectiveTopic topic))).
Proof.
  intros Hfault.
  destruct (generateArticle_completes env net (effectiveTopic topic)) as (g & Hg).
  unfold createArticle. fold (effectiveTopic topic).
  destruct (generateArticle env net (effectiveTopic topic)) as [generated made].
  cbn [fst snd] in *. subst generated.
  now rewrite (insert_unreachable db (title g) (content g) Hfault).
Qed.

(** X5: createArticle, given a topic that is a string or is left out,
    fails only through the store.  On a reachable store whose next id is
    below 2^53 it resolves, whatever the external service does, with the
    row it has just inserted: one row is appended, carrying the current
    timestamp and, where they are well-formed UTF-16, the generated title
    and content; its id is larger than every id already in the table, and
    reading that id back gives the same row.  On a store that cannot be
    reached it rejects with the store's error and leaves the table as it
    was, after the generation (and its external calls) has already taken
    place. *)
Theorem createArticle_outcome (env : Env) (net : Network) (db : Db) (topic : JsVal) :
  textTopic topic ->
  (fault db = None -> exactIds db ->
   exists g row,
     fst (generateArticle env net (effectiveTopic topic)) = Normal g
     /\ createArticle env net db topic
        = (Normal (Some row), afterCreate env net db topic,
           snd (generateArticle env net (effectiveTopic topic)))
     /\ appended db (afterCreate env net db topic) [row]
     /\ (wellFormed (title g) = true -> row_title row = title g)
     /\ (wellFormed (content g) = true -> row_content row = content g)
     /\ created_at row = now db
     /\ (forall r, In r (rows db) -> (id r < id row)%Z)
     /\ getArticle (afterCreate env net db topic) (PInt (id row)) = Normal (Some row))
  /\ (forall e, fault db = Some e ->
                createArticle env net db topic
                = (Throw e, db, snd (generateArticle env net (effectiveTopic topic)))).
Proof.
  intros _. split.
  - intros Hfault _.
    destruct (createArticle_reachable env net db topic Hfault)
      as (g & row & Hg & Hcreate & Happ & Ht & Hc & Hnow & Hfresh & Hread).
    exists g, row. repeat (split; [assumption|]).
    split; [intros _; exact Ht|]. split; [intros _; exact Hc|].
    repeat (split; [assumption|]). exact Hread.
  - intros e. apply createArticle_unreachable.
Qed.

(** On a table with one row of id 7 and sequence 9, an article created
    for the topic DAOs without a credential is stored under the id 10,
    with its title as generated. *)
Lemma createArticle_outcome_one_row :
  textTopic (JStr daos) /\ exactIds oneRow
  /\ exists row,
       fst (fst (createArticle noCredential offline oneRow (JStr daos))) = Normal (Some row)
       /\ id row = 10%Z
       /\ row_title row = lit "Fallback article on DAOs"
       /\ length (rows (afterCreate noCredential offline oneRow (JStr daos))) = 2.
Proof.
  assert (Htopic : textTopic (JStr daos)) by (right; exists daos; reflexivity).
  assert (Hexact : exactIds oneRow) by reflexivity.
  split; [exact Htopic|]. split; [exact Hexact|].
  destruct (proj1 (createArticle_outcome noCredential offline oneRow Htopic) eq_refl Hexact)
    as (g & row & Hg & Hcreate & (Hrows & _) & Htitle & _ & _ & _ & Hread).
  exists row. rewrite Hcreate. cbn [fst snd].
  split; [reflexivity|]. split; [|split].
  - assert (H : map id (rows (afterCreate noCredential offline oneRow (JStr daos)))
                = map id (rows oneRow ++ [row])) by now rewrite Hrows.
    vm_compute in H. now injection H.
  - vm_compute in Hg. injection Hg as <-. apply Htitle. reflexivity.
  - rewrite Hrows, length_app. reflexivity.
Defined.

Lemma appended_refl (db : Db) : appended db db [].
Proof. unfold appended. now rewrite app_nil_r. Qed.

Lemma appended_trans (a b c : Db) (x y : list Row) :
  appended a b x -> appended b c y -> appended a c (x ++ y).
Proof.
  intros (Hr1 & Hf1 & Hn1) (Hr2 & Hf2 & Hn2). unfold appended.
  rewrite Hr2, Hr1, <- app_assoc. repeat split; congruence.
Qed.

Lemma insert_appended (db : Db) (t c : jsstring) :
  exists added, appended db (snd (insert db t c)) added /\ length added <= 1.
Proof.
  destruct (fault db) as [e|] eqn:Hfault.
  - rewrite (insert_unreachable db t c Hfault). exists []. split; [apply appended_refl | simpl; lia].
  - destruct (insert_reachable_row db t c Hfault) as (row & _ & Happ & _).
    exists [row]. split; [exact Happ | simpl; lia].
Qed.

Lemma insertAll_appended (l : list Sample) (db : Db) :
  exists added, appended db (insertAll db l) added.
Proof.
  revert db. induction l as [|a l IH]; intros db.
  - exists []. apply appended_refl.
  - rewrite insertAll_cons.
    destruct (insert_appended db (sample_title a) (sample_content a)) as (x & Hx & _).
    destruct (IH (snd (insert db (sample_title a) (sample_content a)))) as (y & Hy).
    exists (x ++ y). exact (appended_trans Hx Hy).
Qed.

Lemma seedIfEmpty_appended (db : Db) : exists added, appended db (seedIfEmpty db) added.
Proof.
  unfold seedIfEmpty.
  destruct (countAll db) as [count|e]; [|exists []; apply appended_refl].
  destruct (count =? 0)%Z; [apply insertAll_appended | exists []; apply appended_refl].
Qed.

Lemma afterCreate_insert (env : Env) (net : Network) (db : Db) (topic : JsVal) :
  exists g, afterCreate env net db topic = snd (insert db (title g) (content g)).
Proof.
  destruct (generateArticle_completes env net (effectiveTopic topic)) as (g & Hg).
  exists g. unfold afterCreate, createArticle. fold (effectiveTopic topic).
  destruct (generateArticle env net (effectiveTopic topic)) as [generated made].
  cbn [fst] in Hg. subst generated.
  destruct (insert db (title g) (content g)) as [[lastID|err] db']; reflexivity.
Qed.

(** X6: the service never updates or deletes, and never reuses an id.
    Starting from a table whose ids grow in insertion order, seeding and
    creating an article leave every existing row in place and unchanged,
    only append rows (at most one per created article), and keep the ids
    growing, hence distinct. *)
Theorem service_only_appends (env : Env) (net : Network) (db : Db) (topic : JsVal) :
  increasingIds db ->
  NoDup (map id (rows db))
  /\ increasingIds (seedIfEmpty db)
  /\ increasingIds (afterCreate env net db topic)
  /\ (exists added, appended db (seedIfEmpty db) added)
  /\ (exists added, appended db (afterCreate env net db topic) added
                    /\ length added <= 1).
Proof.
  intros Hinc.
  destruct (afterCreate_insert env net db topic) as (g & Hafter).
  split; [now apply StronglySorted_lt_NoDup|].
  split; [now apply seedIfEmpty_increasing|].
  split; [rewrite Hafter; now apply insert_increasing|].
  split; [apply seedIfEmpty_appended|].
  rewrite Hafter. apply insert_appended.
Qed.

(** The table with the single row of id 7 keeps that row first after an
    article is created. *)
Lemma service_only_appends_one_row :
  NoDup (map id (rows (afterCreate noCredential offline oneRow (JStr daos))))
  /\ exists added,
       rows (afterCreate noCredential offline oneRow (JStr daos))
       = rows oneRow ++ added.
Proof.
  assert (Hinc : increasingIds oneRow) by (repeat constructor).
  destruct (service_only_appends noCredential offline (JStr daos) Hinc)
    as (_ & _ & Hafter & _ & (added & (Hrows & _) & _)).
  split; [now apply StronglySorted_lt_NoDup | eauto].
Defined.


(** X8: POST /api/articles/generate, on a parsed request whose topic is a
    string, is falsy or is left out, always answers.  On a reachable store
    whose next id is below 2^53 the answer is 201 with the row just
    appended to the table, whatever the external service does; with no
    credential configured and a well-formed topic its title is Fallback
    article on followed by the requested topic.  On a store that cannot be
    reached the answer is 500 with the store's message as details, and the
    table is unchanged. *)
Theorem generateRoute_outcome (env : Env) (net : Network) (db : Db) (reqBody : JsVal) :
  isString (requestTopic reqBody) ->
  exists r,
    fst (fst (generateRoute env net db reqBody)) = Normal r
    /\ (fault db = None -> exactIds db ->
        code r = 201%Z
        /\ exists row,
             body r = ArticleBody row
             /\ appended db (snd (fst (generateRoute env net db reqBody))) [row]
             /\ (forall s,
                    requestTopic reqBody = JStr s -> wellFormed s = true ->
                    OPENROUTER_API_KEY env = None ->
                    row_title row = lit "Fallback article on " ++ s))
    /\ (forall e, fault db = Some e ->
                  r = errorJson 500 (lit "Failed to generate article") e
                  /\ snd (fst (generateRoute env net db reqBody)) = db).
Proof.
  intros _. unfold generateRoute.
  destruct (fault db) as [e|] eqn:Hfault.
  - rewrite (createArticle_unreachable env net db (requestTopic reqBody) Hfault).
    cbn [fst snd bind tryCatch].
    eexists. split; [reflexivity|]. split; [discriminate|].
    intros e' [= <-]. split; reflexivity.
  - destruct (createArticle_reachable env net db (requestTopic reqBody) Hfault)
      as (g & row & Hg & Hcreate & Happ & Ht & _).
    rewrite Hcreate. cbn [fst snd bind tryCatch].
    eexists. split; [reflexivity|]. split; [|discriminate].
    intros _ _. cbn [code body]. split; [reflexivity|].
    exists row. split; [reflexivity|]. split; [exact Happ|].
    intros s Hs _ Hkey. rewrite Ht.
    assert (Htopic : effectiveTopic (requestTopic reqBody) = requestTopic reqBody).
    { pose proof (RouteFacts.requestTopic_truthy reqBody) as Htruthy.
      unfold effectiveTopic. now destruct (requestTopic reqBody). }
    rewrite Htopic in Hg.
    pose proof (generateArticle_cases env net (requestTopic reqBody)) as Hcases.
    rewrite (no_credential_no_text env net (requestTopic reqBody) Hkey) in Hcases.
    rewrite Hg in Hcases. injection Hcases as ->. rewrite Hs. reflexivity.
Qed.

(** The scenario of the specification: with no credential, the body with
    topic DAOs is answered 201 with the title Fallback article on DAOs. *)
Lemma generateRoute_outcome_daos :
  isString (requestTopic (JObj [ (lit "topic", JStr daos) ]))
  /\ exactIds emptyDb
  /\ exists r row,
       fst (fst (generateRoute noCredential offline emptyDb
                               (JObj [ (lit "topic", JStr daos) ]))) = Normal r
       /\ code r = 201%Z
       /\ body r = ArticleBody row
       /\ row_title row = lit "Fallback article on DAOs".
Proof.
  assert (Htopic : isString (requestTopic (JObj [ (lit "topic", JStr daos) ])))
    by (exists daos; reflexivity).
  assert (Hexact : exactIds emptyDb) by reflexivity.
  split; [exact Htopic|]. split; [exact Hexact|].
  destruct (generateRoute_outcome noCredential offline emptyDb
                                  (JObj [ (lit "topic", JStr daos) ]) Htopic)
    as (r & Hr & Hok & _).
  destruct (Hok eq_refl Hexact) as (Hcode & row & Hbody & _ & Htitle).
  exists r, row. split; [exact Hr|]. split; [exact Hcode|].
  split; [exact Hbody|]. exact (Htitle daos eq_refl eq_refl eq_refl).
Defined.

Lemma articleJobTick_db (env : Env) (net : Network) (db : Db) :
  snd (fst (articleJobTick env net db)) = afterCreate env net db JUndefined.
Proof.
  unfold articleJobTick, afterCreate.
  now destruct (createArticle env net db JUndefined) as [[created db'] made].
Qed.

Lemma articleJobTick_completes (env : Env) (net : Network) (db : Db) :
  fst (fst (articleJobTick env net db)) = Normal tt.
Proof.
  unfold articleJobTick.
  destruct (createArticle env net db JUndefined) as [[[row|e] db'] made]; reflexivity.
Qed.

Lemma articleJobTicks_rows (env : Env) (net : Network) (n : nat) (db : Db) :
  fault db = None ->
  length (rows (articleJobTicks env net n db)) = length (rows db) + n
  /\ fault (articleJobTicks env net n db) = None.
Proof.
  revert db. induction n as [|n IH]; intros db Hfault; simpl.
  - split; [lia | exact Hfault].
  - rewrite articleJobTick_db.
    destruct (createArticle_reachable env net db JUndefined Hfault)
      as (g & row & _ & _ & (Hrows & Hf & _) & _).
    destruct (IH (afterCreate env net db JUndefined)) as (Hlen & Hf').
    + congruence.
    + split; [|exact Hf'].
      rewrite Hlen, Hrows, length_app. simpl. lia.
Qed.

(** X9: a firing of the scheduled job never raises, with or without a
    reachable store; it asks for the default topic.  On a reachable store
    each firing appends exactly one row, so n firings after the startup
    seeding of an empty table leave 3 + n rows; on a store that cannot be
    reached a firing changes nothing. *)
Theorem articleJob_firings (env : Env) (net : Network) (db : Db) (n : nat) :
  fst (fst (articleJobTick env net db)) = Normal tt
  /\ articleJobTick env net db
     = (Normal tt, afterCreate env net db (JStr defaultTopic),
        snd (generateArticle env net (JStr defaultTopic)))
  /\ (fault db = None ->
      length (rows (articleJobTicks env net n db)) = length (rows db) + n)
  /\ (countAll db = Normal 0%Z ->
      length (rows (articleJobTicks env net n (seedIfEmpty db))) = 3 + n)
  /\ (fault db <> None -> articleJobTicks env net n db = db).
Proof.
  split; [apply articleJobTick_completes|].
  split; [|split; [|split]].
  - unfold articleJobTick, afterCreate.
    destruct (fault db) as [e|] eqn:Hfault.
    + rewrite (createArticle_unreachable env net db JUndefined Hfault).
      rewrite (createArticle_unreachable env net db (JStr defaultTopic) Hfault).
      reflexivity.
    + destruct (createArticle_reachable env net db JUndefined Hfault)
        as (g & row & _ & Hcreate & _).
      rewrite Hcreate. reflexivity.
  - intros Hfault. now apply articleJobTicks_rows.
  - intros Hzero.
    assert (Hseed : seedIfEmpty db = insertAll db samples).
    { unfold seedIfEmpty. now rewrite Hzero. }
    apply countAll_zero in Hzero as [Hfault Hrows].
    destruct (insertAll_rows samples db Hfault) as (new & Hnew & Htexts & Hf).
    rewrite <- Hseed in Hnew, Hf.
    destruct (articleJobTicks_rows env net n (seedIfEmpty db) Hf) as [-> _].
    rewrite Hnew, Hrows. simpl app.
    rewrite <- (length_map titleAndContent), Htexts, length_map. reflexivity.
  - intros Hfault. destruct (fault db) as [e|] eqn:He; [|congruence].
    clear Hfault. revert db He.
    induction n as [|n IH]; intros db He; [reflexivity|].
    simpl. rewrite articleJobTick_db. unfold afterCreate.
    rewrite (createArticle_unreachable env net db JUndefined He). cbn [fst snd].
    now apply IH.
Qed.

End ServiceFacts.

(* ================================================================== *)
(** ** Diagnostics *)
(* ================================================================== *)

Module DiagnosticsFacts.
Import Store AiClient Render AiDiagnostics ArticleService Routes Spec Scenario Properties.
Import StrFacts TokenFacts RetryFacts.

Ltac run_steps :=
  unfold stepTry, stepBind, stepLift, stepRet, assign, request; cbn [diag calls fst snd].

(** The first stage never throws; it makes the listing request, and adds
    one error exactly when it does not go through. *)
Lemma verificationStage_run (env : Env) (net : Network) (token : jsstring) (p : Progress) :
  exists p',
    verificationStage env net token p = (Normal (listingReadable net token), p')
    /\ calls p' = calls p ++ [GetModels token]
    /\ success (diag p') = success (diag p)
    /\ testResponse (diag p') = testResponse (diag p)
    /\ hasApiKey (diag p') = hasApiKey (diag p)
    /\ (listingReadable net token = true -> errors (diag p') = errors (diag p))
    /\ (listingReadable net token = false ->
        exists msg, errors (diag p') = errors (diag p) ++ [msg]).
Proof.
  destruct p as [d made].
  unfold verificationStage, listingReadable. run_steps.
  destruct (getModels net token) as [body|err].
  - destruct (truthy (optGet body (lit "data"))).
    + run_steps.
      destruct (freeModelIds (optGet body (lit "data"))) as [ids|e].
      * destruct (negb (existsb _ ids)); run_steps;
          (eexists; split; [reflexivity|]; cbn; repeat split; try discriminate; reflexivity).
      * eexists. split; [reflexivity|]. cbn. repeat split; try discriminate. eauto.
    + eexists. split; [reflexivity|]. cbn. repeat split; try discriminate; reflexivity.
  - eexists. split; [reflexivity|]. cbn. repeat split; try discriminate. eauto.
Qed.

(** Where the conversion to a string does not throw, it is [toStr]. *)
Lemma toStringOf_toStr (v : JsVal) :
  forall s, toStringOf v = Normal s -> toStr v = s.
Proof.
  induction v as [v Hatom | items IH] using JsVal_elements_ind.
  - intros s H. destruct v as [| |[|]|n|s0|items|fields];
      try discriminate Hatom; try (injection H as <-; reflexivity).
    cbn [toStringOf] in H. destruct (hasOwn (lit "toString") fields); [discriminate H|].
    injection H as <-. reflexivity.
  - intros s H. cbn [toStringOf] in H. cbn [toStr].
    match type of H with
    | bind (?each items) _ = _ => destruct (each items) as [parts|e] eqn:Hparts
    end; [|discriminate H].
    cbn [bind] in H. injection H as <-. f_equal.
    revert parts Hparts.
    induction IH as [|x rest Hx _ IHrest]; intros parts Hparts.
    + injection Hparts as <-. reflexivity.
    + cbn [map].
      match type of Hparts with
      | bind ?c _ = _ => destruct c as [part|e] eqn:Hpart
      end; [|discriminate Hparts].
      cbn [bind] in Hparts.
      match type of Hparts with
      | bind ?c _ = _ => destruct c as [others|e] eqn:Hothers
      end; [|discriminate Hparts].
      cbn [bind] in Hparts. injection Hparts as <-.
      rewrite (IHrest others eq_refl). f_equal.
      destruct x; try (injection Hpart as <-; reflexivity); apply Hx; exact Hpart.
Qed.

(** The second stage posts the one request, for the configured model, and
    ends as [afterGeneration] describes: with the object it leaves, or with
    what its handler throws. *)
Lemma generationStage_run (env : Env) (net : Network) (token : jsstring) (p : Progress) :
  exists p',
    generationStage env net token p
    = (match afterGeneration
               (postChat net 0 token
                         (buildOpenRouterPayload testPrompt (configuredModel env)))
               (diag p) with
       | Normal _ => Normal tt
       | Throw e => Throw e
       end, p')
    /\ calls p' = calls p ++ [diagnosticPost env token]
    /\ (forall d',
           afterGeneration
             (postChat net 0 token
                       (buildOpenRouterPayload testPrompt (configuredModel env)))
             (diag p) = Normal d' ->
           diag p' = d').
Proof.
  destruct p as [d made].
  unfold generationStage, afterGeneration, diagnosticPost, caught. run_steps.
  assert (Hcaught : forall (err : JsError) (d0 : Diagnostics),
    exists p',
      match messageOrError (formatHttpError err) with
      | Normal a =>
          (Normal tt,
           {| diag := setFailure (formatHttpError err)
                        (pushError (lit "Generation test failed: " ++ a) d0);
              calls := made ++ [PostChat token
                                  (buildOpenRouterPayload testPrompt (configuredModel env))] |})
      | Throw e =>
          (Throw e,
           {| diag := d0;
              calls := made ++ [PostChat token
                                  (buildOpenRouterPayload testPrompt (configuredModel env))] |})
      end
      = (match (text <- messageOrError (formatHttpError err) ;;
                ret (setFailure (formatHttpError err)
                       (pushError (lit "Generation test failed: " ++ text) d0))) with
         | Normal _ => Normal tt
         | Throw e => Throw e
         end, p')
      /\ calls p' = made ++ [PostChat token
                               (buildOpenRouterPayload testPrompt (configuredModel env))]
      /\ (forall d',
             (text <- messageOrError (formatHttpError err) ;;
              ret (setFailure (formatHttpError err)
                     (pushError (lit "Generation test failed: " ++ text) d0))) = Normal d' ->
             diag p' = d')).
  { intros err d0. destruct (messageOrError (formatHttpError err)) as [text|e];
      cbn [bind]; eexists; (split; [reflexivity|]); cbn [diag calls];
      (split; [reflexivity|]); intros d' H;
      [injection H as <-; reflexivity | discriminate H]. }
  destruct (postChat net 0 token _) as [body|err]; [|apply Hcaught].
  destruct (normalizeGeneratedText body) as [text|e]; [|apply Hcaught].
  destruct (truthy text); run_steps.
  - destruct (callSubstring text 100); [|apply Hcaught].
    eexists. split; [reflexivity|]. cbn [diag calls]. split; [reflexivity|].
    intros d' H. injection H as <-. reflexivity.
  - destruct (stringifyPrefix body 200); [|apply Hcaught].
    eexists. split; [reflexivity|]. cbn [diag calls]. split; [reflexivity|].
    intros d' H. injection H as <-. reflexivity.
Qed.

Ltac read_fields :=
  cbn [success errors testResponse hasApiKey rawResponse statusCode
       setFailure pushError setSuccess setTestResponse setRawResponse].

(** When the handler completes, it has added an error. *)
Lemma caught_errors (err : JsError) (d d' : Diagnostics) :
  caught err d = Normal d' ->
  errors d' <> [] /\ success d' = success d /\ hasApiKey d' = hasApiKey d.
Proof.
  unfold caught. destruct (messageOrError (formatHttpError err)) as [text|e];
    cbn [bind]; intros H; [|discriminate H].
  injection H as <-. read_fields. split; [|split; reflexivity].
  intros H. apply app_eq_nil in H as [_ H]. discriminate H.
Qed.

(** The handler throws exactly when the message cannot be rendered. *)
Lemma caught_throws (err : JsError) (d : Diagnostics) :
  (exists e, caught err d = Throw e) <-> unrenderable (interpolated (formatHttpError err)).
Proof.
  unfold caught, unrenderable, messageOrError.
  destruct (toStringOf (interpolated (formatHttpError err))) as [text|e]; cbn [bind].
  - split; intros (e & H); discriminate H.
  - split; intros _; exists e; reflexivity.
Qed.

(** An error raised inside the process has a message that renders. *)
Lemma internal_renders (e : JsError) (d : Diagnostics) :
  internal e -> exists d', caught e d = Normal d'.
Proof.
  unfold internal, caught, messageOrError, interpolated, formatHttpError. intros ->.
  destruct (Str.eqb (err_name e) (lit "AbortError") || optEqb (err_code e) (lit "ECONNABORTED")).
  - eexists. reflexivity.
  - cbn [info_message info_error orUndefined or truthy].
    destruct (err_message e) as [|c rest]; eexists; reflexivity.
Qed.

Lemma pushError_nonempty (msg : jsstring) (d : Diagnostics) : errors (pushError msg d) <> [].
Proof.
  read_fields. intros H. apply app_eq_nil in H as [_ H]. discriminate H.
Qed.

Lemma callSubstring_internal (text : JsVal) (n : nat) (e : JsError) :
  callSubstring text n = Throw e -> internal e.
Proof.
  destruct text; cbn; intros H; try discriminate H; injection H as <-; reflexivity.
Qed.

Lemma stringifyPrefix_internal (body : JsVal) (n : nat) (e : JsError) :
  stringifyPrefix body n = Throw e -> internal e.
Proof.
  destruct body; cbn; intros H; try discriminate H; injection H as <-; reflexivity.
Qed.

Lemma normalize_internal (body : JsVal) (e : JsError) :
  normalizeGeneratedText body = Throw e -> internal e.
Proof.
  intros H. apply normalize_throws_typeError in H as (msg & ->). reflexivity.
Qed.

(** The second stage throws exactly when the chat request is rejected with
    a message that cannot be rendered. *)
Lemma afterGeneration_throws (answer : Completion JsVal) (d : Diagnostics) :
  (exists e, afterGeneration answer d = Throw e) <-> breaksHandler answer.
Proof.
  unfold breaksHandler.
  assert (Hin : forall e0 d0 (body : JsVal),
             internal e0 ->
             ((exists e, caught e0 d0 = Throw e) <->
              exists err, Normal body = Throw err
                          /\ unrenderable (interpolated (formatHttpError err)))).
  { intros e0 d0 body Hint. destruct (internal_renders d0 Hint) as (d' & ->).
    split; [intros (e & H); discriminate H | intros (err & H & _); discriminate H]. }
  assert (Hok : forall (d0 : Diagnostics) (body : JsVal),
             ((exists e, Normal d0 = Throw e) <->
              exists err, @Normal JsVal body = Throw err
                          /\ unrenderable (interpolated (formatHttpError err)))).
  { intros d0 body.
    split; [intros (e & H); discriminate H | intros (err & H & _); discriminate H]. }
  unfold afterGeneration.
  destruct answer as [body|err].
  - destruct (normalizeGeneratedText body) as [text|e] eqn:Hnorm;
      [|apply Hin; eapply normalize_internal; eassumption].
    destruct (truthy text).
    + destruct (callSubstring text 100) as [sample|e] eqn:Hsub;
        [apply Hok | apply Hin; eapply callSubstring_internal; eassumption].
    + destruct (stringifyPrefix body 200) as [raw|e] eqn:Hraw;
        [apply Hok | apply Hin; eapply stringifyPrefix_internal; eassumption].
  - rewrite caught_throws. split.
    + intros H. exists err. split; [reflexivity | exact H].
    + intros (err' & Heq & H). injection Heq as <-. exact H.
Qed.

(** What the second stage leaves when it completes. *)
Lemma afterGeneration_facts (answer : Completion JsVal) (d d' : Diagnostics) :
  afterGeneration answer d = Normal d' ->
  hasApiKey d' = hasApiKey d
  /\ (success d = false -> (success d' = true <-> exists text, yieldsText answer text))
  /\ (errors d' = [] -> success d' = true /\ testResponse d' <> None).
Proof.
  unfold afterGeneration, yieldsText.
  destruct answer as [body|err].
  - destruct (normalizeGeneratedText body) as [text|e] eqn:Hnorm.
    + destruct (truthy text) eqn:Htruthy.
      * assert (Hyes : exists text' d0, Normal body = Normal d0
                                        /\ normalizeGeneratedText d0 = Normal text'
                                        /\ truthy text' = true)
          by (exists text, body; auto).
        destruct (callSubstring text 100) as [sample|e] eqn:Hsub.
        -- intros H. injection H as <-. read_fields.
           split; [reflexivity|]. split; [tauto|].
           intros _; split; [reflexivity | discriminate].
        -- intros H. destruct (caught_errors _ _ H) as (Herr & Hs & Hk).
           rewrite Hk, Hs. read_fields. split; [reflexivity|]. split; [tauto|].
           intros H'; contradiction.
      * assert (Hno : forall text', (exists d0, Normal body = Normal d0
                                                /\ normalizeGeneratedText d0 = Normal text'
                                                /\ truthy text' = true) -> False).
        { intros text' (d0 & Hd0 & Hn0 & Ht0). injection Hd0 as <-.
          rewrite Hnorm in Hn0. injection Hn0 as <-. congruence. }
        destruct (stringifyPrefix body 200) as [raw|e].
        -- intros H. injection H as <-. read_fields. split; [reflexivity|].
           split; [intros ->; split; [discriminate | intros (t & Ht); destruct (Hno t Ht)]|].
           intros H; apply app_eq_nil in H as [_ H]; discriminate H.
        -- intros H. destruct (caught_errors _ _ H) as (Herr & Hs & Hk).
           rewrite Hk, Hs. read_fields. split; [reflexivity|].
           split; [intros ->; split; [discriminate | intros (t & Ht); destruct (Hno t Ht)]|].
           intros H'; contradiction.
    + assert (Hno : forall text', (exists d0, Normal body = Normal d0
                                              /\ normalizeGeneratedText d0 = Normal text'
                                              /\ truthy text' = true) -> False).
      { intros text' (d0 & Hd0 & Hn0 & _). injection Hd0 as <-.
        rewrite Hnorm in Hn0. discriminate Hn0. }
      intros H. destruct (caught_errors _ _ H) as (Herr & Hs & Hk).
      rewrite Hk, Hs. split; [reflexivity|].
      split; [intros ->; split; [discriminate | intros (t & Ht); destruct (Hno t Ht)]|].
      intros H'; contradiction.
  - intros H. destruct (caught_errors _ _ H) as (Herr & Hs & Hk).
    rewrite Hk, Hs. split; [reflexivity|].
    split; [intros ->; split;
            [discriminate | intros (t & d0 & Hd0 & _); discriminate Hd0]|].
    intros H'; contradiction.
Qed.

(** A string answer is recorded as a success, with its first 100 units. *)
Lemma afterGeneration_string (answer : Completion JsVal) (d : Diagnostics) (s : jsstring) :
  yieldsText answer (JStr s) ->
  afterGeneration answer d = Normal (setTestResponse (firstn 100 s) (setSuccess d)).
Proof.
  intros (body & -> & Hnorm & Htruthy). unfold afterGeneration.
  rewrite Hnorm, Htruthy. reflexivity.
Qed.

(** The three ways the function runs, by the credential and the listing. *)
Lemma testOpenRouterConnection_run (env : Env) (net : Network) :
  (envOrEmpty (OPENROUTER_API_KEY env) = []
   /\ testOpenRouterConnection env net
      = (Normal (pushError (lit "OPENROUTER_API_KEY is not set") (initialDiagnostics env)),
         []))
  \/ (exists token d,
        OPENROUTER_API_KEY env = Some token /\ token <> []
        /\ listingReadable net token = false
        /\ testOpenRouterConnection env net = (Normal d, [GetModels token])
        /\ success d = false /\ errors d <> [] /\ hasApiKey d = true)
  \/ (exists token d,
        OPENROUTER_API_KEY env = Some token /\ token <> []
        /\ listingReadable net token = true
        /\ testOpenRouterConnection env net
           = (afterGeneration
                (postChat net 0 token
                          (buildOpenRouterPayload testPrompt (configuredModel env)))
                d,
              [GetModels token; diagnosticPost env token])
        /\ success d = false /\ errors d = [] /\ hasApiKey d = true).
Proof.
  unfold testOpenRouterConnection.
  destruct (OPENROUTER_API_KEY env) as [[|c token]|] eqn:Hkey.
  - left. split; reflexivity.
  - right.
    destruct (verificationStage_run env net (c :: token)
                {| diag := initialDiagnostics env; calls := [] |})
      as (p' & Hrun & Hcalls & Hsucc & _ & Hhas & Hok & Hbad).
    rewrite Hrun.
    assert (Hstart : hasApiKey (initialDiagnostics env) = true)
      by (unfold initialDiagnostics; now rewrite Hkey).
    cbn [diag calls app] in Hcalls, Hsucc, Hhas, Hok, Hbad.
    destruct (listingReadable net (c :: token)) eqn:Hreadable.
    + right. exists (c :: token), (diag p').
      destruct (generationStage_run env net (c :: token) p')
        as (p'' & Hgen & Hposted & Hleft).
      rewrite Hgen, Hposted, Hcalls. cbn [app].
      split; [reflexivity|]. split; [discriminate|]. split; [exact Hreadable|].
      split.
      { destruct (afterGeneration _ (diag p')) as [d'|e]; [|reflexivity].
        now rewrite (Hleft d' eq_refl). }
      split; [exact Hsucc|].
      split; [exact (Hok eq_refl) | congruence].
    + left. exists (c :: token), (diag p'). rewrite Hcalls.
      split; [reflexivity|]. split; [discriminate|]. split; [exact Hreadable|].
      split; [reflexivity|]. split; [exact Hsucc|]. split; [|congruence].
      destruct (Hbad eq_refl) as (msg & Hmsg). rewrite Hmsg.
      intros H. apply app_eq_nil in H as [_ H]. discriminate H.
  - left. split; reflexivity.
Qed.

(** X10: the diagnostics route always answers, with 200 or 500.  When
    testOpenRouterConnection resolves, the answer is 200 with the object;
    when it rejects, the answer is 500 with the summary Failed to run
    diagnostics and the message of the rejection as details.  The function
    rejects in one case only: a credential is set, the listing stage went
    through, and the chat request was rejected with a response whose
    message cannot be converted to a string, so that the handler of the
    second stage throws while it builds its error line.  At most two
    external calls are made: none without a credential, the models listing
    alone when the listing is refused or cannot be read, and otherwise the
    listing followed by a single chat request, for the configured model (no
    other model is tried). *)
Theorem diagnostics_always_answer (env : Env) (net : Network)
        (toJson : Diagnostics -> JsVal) :
  (exists r, diagnosticsResponse toJson env net = Normal r
             /\ (code r = 200 \/ code r = 500)%Z)
  /\ (forall d,
         fst (testOpenRouterConnection env net) = Normal d ->
         diagnosticsResponse toJson env net
         = Normal {| code := 200; body := JsonBody (toJson d) |})
  /\ (forall e,
         fst (testOpenRouterConnection env net) = Throw e ->
         diagnosticsResponse toJson env net
         = Normal (errorJson 500 (lit "Failed to run diagnostics") e))
  /\ ((exists e, fst (testOpenRouterConnection env net) = Throw e) <->
      exists token,
        OPENROUTER_API_KEY env = Some token /\ token <> []
        /\ listingReadable net token = true
        /\ breaksHandler (postChat net 0 token
                            (buildOpenRouterPayload testPrompt (configuredModel env))))
  /\ length (snd (testOpenRouterConnection env net)) <= 2
  /\ (envOrEmpty (OPENROUTER_API_KEY env) = [] ->
      snd (testOpenRouterConnection env net) = [])
  /\ (forall token,
         OPENROUTER_API_KEY env = Some token -> token <> [] ->
         snd (testOpenRouterConnection env net)
         = if listingReadable net token
           then [GetModels token; diagnosticPost env token]
           else [GetModels token]).
Proof.
  unfold diagnosticsResponse.
  split.
  { destruct (fst (testOpenRouterConnection env net)) as [d|e];
      eexists; (split; [reflexivity|]); cbn [code errorJson]; auto. }
  split; [intros d ->; reflexivity|].
  split; [intros e ->; reflexivity|].
  destruct (testOpenRouterConnection_run env net)
    as [(Hkey & Hrun) | [(token & d & Hkey & Htoken & Hread & Hrun & _)
                        | (token & d & Hkey & Htoken & Hread & Hrun & _)]];
    rewrite Hrun; cbn [fst snd length].
  - split.
    { split; [intros (e & H); discriminate H|].
      intros (token & Hsome & Hne & _). rewrite Hsome in Hkey. contradiction. }
    split; [lia|]. split; [reflexivity|].
    intros token Hsome Hne. rewrite Hsome in Hkey. contradiction.
  - split.
    { split; [intros (e & H); discriminate H|].
      intros (token' & Hsome & _ & Hread' & _). rewrite Hkey in Hsome.
      injection Hsome as <-. congruence. }
    split; [lia|]. split; [rewrite Hkey; intros H; contradiction|].
    intros token' Hsome _. rewrite Hkey in Hsome. injection Hsome as <-.
    now rewrite Hread.
  - split.
    { rewrite afterGeneration_throws. split.
      - intros H. exists token. auto.
      - intros (token' & Hsome & _ & _ & H). rewrite Hkey in Hsome.
        injection Hsome as <-. exact H. }
    split; [lia|]. split; [rewrite Hkey; intros H; contradiction|].
    intros token' Hsome _. rewrite Hkey in Hsome. injection Hsome as <-.
    now rewrite Hread.
Qed.

(** A chat request refused with an error whose message is an object with a
    toString key makes the function reject: the route answers 500, after
    the listing and the one chat request. *)
Lemma diagnostics_always_answer_unrenderable :
  exists e,
    fst (testOpenRouterConnection withCredential (refusing unrenderableError)) = Throw e
    /\ diagnosticsResponse (fun _ => JNull) withCredential (refusing unrenderableError)
       = Normal (errorJson 500 (lit "Failed to run diagnostics") e)
    /\ length (snd (testOpenRouterConnection withCredential (refusing unrenderableError))) = 2.
Proof.
  destruct (diagnostics_always_answer withCredential (refusing unrenderableError)
                                      (fun _ => JNull))
    as (_ & _ & Hrejects & _).
  eexists. split; [reflexivity|]. split; [|reflexivity].
  apply Hrejects. reflexivity.
Defined.

(** X11: what the diagnostics report.  Without a credential the function
    returns an object that says so: hasApiKey false, the single error
    OPENROUTER_API_KEY is not set, success false.  Whenever the function
    returns an object: hasApiKey is false exactly when no credential is
    set; success is true exactly when the listing went through and the
    chat request yielded text; an empty errors list implies success with a
    sample of the text.  When the listing went through and the chat
    request yielded a string, the function returns an object with success
    true, no error, and the first 100 characters of the string as
    sample. *)
Theorem diagnostics_report (env : Env) (net : Network) :
  (envOrEmpty (OPENROUTER_API_KEY env) = [] ->
   exists d,
     fst (testOpenRouterConnection env net) = Normal d
     /\ hasApiKey d = false
     /\ errors d = [lit "OPENROUTER_API_KEY is not set"] /\ success d = false)
  /\ (forall d,
         fst (testOpenRouterConnection env net) = Normal d ->
         (hasApiKey d = false <-> envOrEmpty (OPENROUTER_API_KEY env) = [])
         /\ (success d = true <->
             exists token text,
               OPENROUTER_API_KEY env = Some token /\ token <> []
               /\ listingReadable net token = true
               /\ yieldsText (postChat net 0 token
                                (buildOpenRouterPayload testPrompt (configuredModel env)))
                             text)
         /\ (errors d = [] -> success d = true /\ testResponse d <> None))
  /\ (forall token s,
         OPENROUTER_API_KEY env = Some token -> token <> [] ->
         listingReadable net token = true ->
         yieldsText (postChat net 0 token
                       (buildOpenRouterPayload testPrompt (configuredModel env)))
                    (JStr s) ->
         exists d,
           fst (testOpenRouterConnection env net) = Normal d
           /\ success d = true /\ errors d = [] /\ testResponse d = Some (firstn 100 s)).
Proof.
  destruct (testOpenRouterConnection_run env net)
    as [(Hkey & Hrun) | [(token & d & Hkey & Htoken & Hread & Hrun & Hs & He & Hh)
                        | (token & d & Hkey & Htoken & Hread & Hrun & Hs & He & Hh)]];
    rewrite Hrun; cbn [fst].
  - assert (Hhas : hasApiKey (initialDiagnostics env) = false)
      by (unfold initialDiagnostics; now rewrite Hkey).
    split; [|split].
    + intros _. eexists. split; [reflexivity|]. read_fields.
      split; [exact Hhas|]. split; reflexivity.
    + intros d0 H. injection H as <-. read_fields.
      cbn [initialDiagnostics errors success app].
      split; [tauto|]. split.
      * split; [discriminate|].
        intros (token & text & Hsome & Hne & _). rewrite Hsome in Hkey. contradiction.
      * discriminate.
    + intros token s Hsome Hne. rewrite Hsome in Hkey. contradiction.
  - rewrite Hkey. cbn [envOrEmpty]. split; [contradiction|]. split.
    + intros d0 H. injection H as <-.
      split; [split; [congruence | contradiction]|]. split.
      * split; [congruence|].
        intros (token' & text & Hsome & _ & Hread' & _).
        injection Hsome as <-. congruence.
      * contradiction.
    + intros token' s Hsome _ Hread'. injection Hsome as <-. congruence.
  - rewrite Hkey. cbn [envOrEmpty]. split; [contradiction|]. split.
    + intros d0 H.
      destruct (afterGeneration_facts _ _ H) as (Hhas & Hsucc & Hempty).
      split; [rewrite Hhas; split; [congruence | contradiction]|]. split.
      * rewrite (Hsucc Hs). split.
        -- intros (text & Hy). exists token, text. auto.
        -- intros (token' & text & Hsome & _ & _ & Hy). injection Hsome as <-. eauto.
      * exact Hempty.
    + intros token' s Hsome _ _ Hy. injection Hsome as <-.
      rewrite (afterGeneration_string d Hy).
      eexists. split; [reflexivity|]. read_fields.
      split; [reflexivity|]. split; [exact He | reflexivity].
Qed.

(** A service that answers the word test is reported as a success with
    that sample and no error, after the listing and one request; without a
    credential the object carries the single error of the missing key. *)
Lemma diagnostics_report_examples :
  (exists d,
     fst (testOpenRouterConnection withCredential (answering (JStr (lit "test"))))
     = Normal d
     /\ success d = true /\ errors d = [] /\ testResponse d = Some (lit "test"))
  /\ (exists d,
        fst (testOpenRouterConnection noCredential offline) = Normal d
        /\ hasApiKey d = false
        /\ errors d = [lit "OPENROUTER_API_KEY is not set"] /\ success d = false).
Proof.
  destruct (diagnostics_report withCredential (answering (JStr (lit "test"))))
    as (_ & _ & Hstring).
  destruct (diagnostics_report noCredential offline) as (Hnone & _).
  split.
  - apply (Hstring (lit "sk-or-test") (lit "test")).
    + reflexivity.
    + discriminate.
    + reflexivity.
    + eexists. split; [reflexivity|]. split; reflexivity.
  - apply Hnone. reflexivity.
Defined.

End DiagnosticsFacts.

(* ================================================================== *)
(** ** Shape of parsed articles, normalisation outcomes, allowed origins *)
(* ================================================================== *)

Module ShapeFacts.
Import AiClient Server Spec Scenario Properties.
Import StrFacts ParseFacts GenerateFacts ConfigFacts NormalizeFacts.

Lemma In_trimStart (x : N) (s : jsstring) : In x (trimStart s) -> In x s.
Proof.
  induction s as [|c s IH]; simpl; [auto|].
  destruct (isWhiteSpace c); [intros H; right; now apply IH | auto].
Qed.

Lemma In_trim (x : N) (s : jsstring) : In x (trim s) -> In x s.
Proof.
  unfold trim, trimEnd. intros H.
  apply In_trimStart. apply in_rev. apply In_trimStart. now apply in_rev.
Qed.

Lemma In_dropHashes (x : N) (s : jsstring) : In x (dropHashes s) -> In x s.
Proof.
  induction s as [|c s IH]; simpl; [auto|].
  destruct (c =? HASH)%N; [intros H; right; now apply IH | auto].
Qed.

Lemma In_firstn (x : N) (n : nat) (s : jsstring) : In x (firstn n s) -> In x s.
Proof.
  revert n. induction s as [|c s IH]; intros [|n]; simpl; try tauto.
  intros [H | H]; [now left | right; now apply (IH n)].
Qed.

Lemma linesFrom_single (s current : jsstring) :
  ~ In LF s -> linesFrom current s = [current ++ s].
Proof.
  revert current. induction s as [|c s IH]; intros current Hno; simpl.
  - now rewrite app_nil_r.
  - destruct (c =? LF)%N eqn:E.
    + apply N.eqb_eq in E. subst. exfalso. apply Hno. now left.
    + rewrite IH; [now rewrite <- app_assoc|].
      intros H. apply Hno. now right.
Qed.

Lemma nonEmptyLines_no_LF (text line : jsstring) :
  In line (nonEmptyLines text) -> ~ In LF line.
Proof.
  unfold nonEmptyLines. rewrite filter_In. intros [Hin _].
  apply (linesFrom_no_LF text [] line); [intros [] | exact Hin].
Qed.

(** X12: the shape of a parsed article.  The content never has white
    space at either end.  The title is either the synthesized New article
    on topic, or a piece of the first line: then it is not empty, has at
    most 140 characters, holds no line feed (a carriage return or another
    line terminator can remain inside it) and does not begin with white
    space.  A text of a single line is its own content (the title line is
    not removed from it), and a text of white space only gives the
    synthesized title with an empty content. *)
Theorem parseGenerated_shape (topic : JsVal) (raw : jsstring) :
  trimmed (content (parseGenerated topic raw))
  /\ (title (parseGenerated topic raw) = lit "New article on " ++ toStr topic
      \/ (title (parseGenerated topic raw) <> []
          /\ length (title (parseGenerated topic raw)) <= 140
          /\ ~ In LF (title (parseGenerated topic raw))
          /\ trimStart (title (parseGenerated topic raw))
             = title (parseGenerated topic raw)))
  /\ (~ In LF (trim raw) -> content (parseGenerated topic raw) = trim raw)
  /\ (hasInk raw = false ->
      title (parseGenerated topic raw) = lit "New article on " ++ toStr topic
      /\ content (parseGenerated topic raw) = []).
Proof.
  change (parseGenerated topic raw) with (parseGenerated (JStr (toStr topic)) raw).
  rewrite parseGenerated_title, parseGenerated_content.
  unfold parsedTitle, parsedContent, trimmed.
  split; [|split; [|split]].
  - destruct (nonEmptyLines (trim raw)) as [|first [|second rest]];
      apply trim_idempotent.
  - destruct (nonEmptyLines (trim raw)) as [|first rest] eqn:Hlines; [now left|].
    unfold stripMarkers.
    destruct (trim (dropHashes first)) as [|c stripped] eqn:Hstrip; [now left|].
    right.
    assert (Hc : isWhiteSpace c = false).
    { pose proof (trimStart_trim (dropHashes first)) as H. rewrite Hstrip in H.
      exact (trimStart_head_ink _ H). }
    split; [discriminate|]. split; [apply firstn_le_length|]. split.
    + intros Hin. apply In_firstn in Hin. rewrite <- Hstrip in Hin.
      apply In_trim, In_dropHashes in Hin.
      apply (nonEmptyLines_no_LF (trim raw) first); [|exact Hin].
      rewrite Hlines. now left.
    + simpl. now rewrite Hc.
  - intros Hone. unfold nonEmptyLines.
    rewrite (linesFrom_single (trim raw) [] Hone). simpl.
    now destruct (negb (Str.eqb (trim raw) [])).
  - intros Hblank. apply trim_empty_iff in Hblank. rewrite Hblank.
    split; reflexivity.
Qed.

(** X13: what normalizeGeneratedText returns.  It throws exactly when the
    response is truthy and the first element of its choices array is null
    or undefined; otherwise it returns the first truthy one of the chat
    message content, the legacy completion text, the body itself if it is
    a string, the content field and the text field, and null when there is
    none.  So a returned value is null or truthy, a falsy response gives
    null, and a non-empty string is returned as it is. *)
Theorem normalize_outcomes (response : JsVal) :
  (firstChoiceMissing response = false ->
   normalizeGeneratedText response = Normal (extractedText response))
  /\ (firstChoiceMissing response = true ->
      exists msg, normalizeGeneratedText response = Throw (typeError msg))
  /\ (forall v, normalizeGeneratedText response = Normal v ->
                v = JNull \/ truthy v = true)
  /\ (truthy response = false -> normalizeGeneratedText response = Normal JNull)
  /\ (forall s, response = JStr s -> s <> [] ->
                normalizeGeneratedText response = Normal response).
Proof.
  split; [apply normalize_priority_order|].
  split; [apply normalize_missing_choice_throws|].
  split; [|split].
  - intros v Hv.
    destruct (firstChoiceMissing response) eqn:Hmissing.
    + destruct (normalize_missing_choice_throws response Hmissing) as (msg & Hthrow).
      congruence.
    + rewrite (normalize_priority_order response Hmissing) in Hv.
      injection Hv as <-. unfold extractedText.
      destruct (find truthy (textSources response)) as [text|] eqn:Hfind; [|now left].
      right. now apply find_some in Hfind.
  - intros Hfalsy. unfold normalizeGeneratedText. now rewrite Hfalsy.
  - intros s -> Hs. destruct s as [|c s]; [contradiction | reflexivity].
Qed.

Lemma split_head (sep : N) (s : jsstring) :
  exists first rest, split sep s = first :: rest.
Proof. rewrite split_cons. eauto. Qed.

Lemma join_push (sep : jsstring) (c : N) (l : jsstring) (ls : list jsstring) :
  join sep ((c :: l) :: ls) = c :: join sep (l :: ls).
Proof. destruct ls; reflexivity. Qed.

(** Joining what [split] gives, with the separator, gives the string
    back. *)
Lemma join_split (sep : N) (s : jsstring) : join [sep] (split sep s) = s.
Proof.
  induction s as [|c s IH]; [reflexivity|].
  simpl split. destruct (c =? sep)%N eqn:E.
  - apply N.eqb_eq in E. subst c.
    destruct (split_head sep s) as (first & rest & Hs). rewrite Hs in *.
    change (join [sep] ([] :: first :: rest)) with (sep :: join [sep] (first :: rest)).
    now rewrite IH.
  - destruct (split_head sep s) as (first & rest & Hs). rewrite Hs in *.
    rewrite join_push. now rewrite IH.
Qed.

Lemma split_no_sep (sep : N) (s : jsstring) :
  Forall (fun part => ~ In sep part) (split sep s).
Proof.
  induction s as [|c s IH]; simpl.
  - constructor; [intros [] | constructor].
  - destruct (c =? sep)%N eqn:E.
    + constructor; [intros [] | exact IH].
    + destruct (split sep s) as [|l ls]; [repeat constructor; intros [H | []]|].
      * subst. now rewrite N.eqb_refl in E.
      * inversion IH as [|? ? Hl Hls]; subst. constructor; [|exact Hls].
        intros [H | H]; [|contradiction].
        subst. now rewrite N.eqb_refl in E.
Qed.

(** X14: the allowed origins.  Any origin is allowed exactly when
    ALLOWED_ORIGIN is not set.  When it is set, even to the empty string,
    the origins are a non-empty list of the pieces between its commas:
    none holds a comma, and joined with commas they give the variable
    back; the empty string gives the single empty origin. *)
Theorem corsOrigin_pieces (ALLOWED_ORIGIN : option jsstring) :
  (corsOrigin ALLOWED_ORIGIN = AnyOrigin <-> ALLOWED_ORIGIN = None)
  /\ (forall s, ALLOWED_ORIGIN = Some s ->
                exists first rest,
                  corsOrigin ALLOWED_ORIGIN = Origins (first :: rest)
                  /\ join [COMMA] (first :: rest) = s
                  /\ Forall (fun origin => ~ In COMMA origin) (first :: rest))
  /\ corsOrigin (Some []) = Origins [[]].
Proof.
  split; [|split; [|reflexivity]].
  - destruct ALLOWED_ORIGIN; simpl; split; congruence.
  - intros s ->. cbn [corsOrigin].
    destruct (split_head COMMA s) as (first & rest & Hs).
    exists first, rest. rewrite <- Hs.
    split; [reflexivity|]. split; [apply join_split | apply split_no_sep].
Qed.

(** Two origins separated by a comma. *)
Lemma corsOrigin_pieces_two :
  corsOrigin (Some (lit "http://a.example,http://b.example"))
  = Origins [ lit "http://a.example"; lit "http://b.example" ].
Proof.
  destruct (proj1 (proj2 (corsOrigin_pieces
                            (Some (lit "http://a.example,http://b.example"))))
                  _ eq_refl)
    as (first & rest & Horigin & _).
  reflexivity.
Defined.

End ShapeFacts.

(* ================================================================== *)
(** ** Generation against diagnostics, and answers that are not text *)
(* ================================================================== *)

Module EdgeFacts.
Import AiClient AiDiagnostics Spec Scenario Properties.
Import StrFacts RetryFacts TokenFacts DiagnosticsFacts.



(** X16: the diagnostics are stricter than the generation about the
    models listing.  Whenever the first stage of the diagnostics goes
    through, verifyToken accepts the token; and a token that verifyToken
    refuses stops the diagnostics after the listing, with the error API
    key is invalid (401 Unauthorized).  A listing that resolves but cannot
    be read is accepted by verifyToken, yet stops the diagnostics. *)
Theorem diagnostics_stricter_than_generation (env : Env) (net : Network)
        (token : jsstring) :
  OPENROUTER_API_KEY env = Some token -> token <> [] ->
  (listingReadable net token = true -> verifyToken net token = true)
  /\ (verifyToken net token = false ->
      exists d,
        testOpenRouterConnection env net = (Normal d, [GetModels token])
        /\ errors d = [lit "API key is invalid (401 Unauthorized)"]
        /\ success d = false)
  /\ (forall body,
         getModels net token = Normal body -> listingReadable net token = false ->
         verifyToken net token = true
         /\ exists d msg,
              testOpenRouterConnection env net = (Normal d, [GetModels token])
              /\ errors d = [lit "Failed to verify API key: " ++ msg]
              /\ success d = false).
Proof.
  intros Hkey Htoken.
  destruct token as [|c token]; [contradiction|].
  unfold listingReadable, verifyToken, testOpenRouterConnection.
  rewrite Hkey. unfold verificationStage.
  unfold stepTry, stepBind, stepLift, stepRet, assign, request. cbn [diag calls fst snd app].
  destruct (getModels net (c :: token)) as [body|err].
  - split; [reflexivity|]. split; [discriminate|].
    intros body' [= <-].
    destruct (truthy (optGet body (lit "data"))); [|discriminate].
    destruct (freeModelIds (optGet body (lit "data"))) as [ids|e] eqn:Hids;
      [discriminate|].
    intros _. split; [reflexivity|].
    rewrite (internal_not_401 (freeModelIds_throws_internal _ Hids)).
    eexists. exists (err_message e). split; [reflexivity|]. split; reflexivity.
  - split; [discriminate|]. split; [|discriminate].
    destruct (responseStatusIs err 401); [|discriminate].
    intros _. eexists. split; [reflexivity|]. split; reflexivity.
Qed.

(** A listing whose data is an object is accepted by verifyToken and
    stops the diagnostics. *)
Lemma diagnostics_stricter_than_generation_unreadable :
  verifyToken unreadableListing (lit "sk-or-test") = true
  /\ exists d,
       testOpenRouterConnection withCredential unreadableListing
       = (Normal d, [GetModels (lit "sk-or-test")])
       /\ success d = false.
Proof.
  destruct (diagnostics_stricter_than_generation withCredential unreadableListing
              (token := lit "sk-or-test") eq_refl ltac:(discriminate))
    as (_ & _ & Hunreadable).
  destruct (Hunreadable malformedListing eq_refl eq_refl)
    as (Hverify & d & msg & Hrun & _ & Hsuccess).
  split; [exact Hverify|]. exists d. split; [exact Hrun | exact Hsuccess].
Defined.

End EdgeFacts.
